(** * xk6-streamloader fixture generators: a shallow embedding

  The repository holds three stand-alone Python scripts:
  - [scripts/generate_large_file.py]: a text file of an exact byte size;
  - [generate_large_csv.py]: a CSV file of 10,000 random records;
  - [generate_large_json.py]: a JSON array of 1000 request descriptors.

  Python [str] values are modelled as lists of characters (every string of
  the scripts is ASCII), Python [int] as [Z], the [random] module as a
  state monad over a tape of raw draws, and an open file as the log of the
  [write] calls it received, from which the bytes on disk are derived. *)

From Stdlib.Strings Require Import Ascii String Byte.
From Stdlib Require Import ZArith List Bool Lia FinFun QArith Qround.
From Stdlib Require Import Decimal DecimalString DecimalPos DecimalZ.
Import ListNotations.

Local Open Scope Z_scope.

(** ** Python strings *)

Module Py.

Abbreviation str := (list ascii).

Definition lit (s : string) : str := list_ascii_of_string s.

Definition LF : ascii := "010"%char.
Definition CR : ascii := "013"%char.

(** [s == t]. *)
Fixpoint eqb (s t : str) : bool :=
  match s, t with
  | [], [] => true
  | c :: s', d :: t' => Ascii.eqb c d && eqb s' t'
  | _, _ => false
  end.

(** [string.ascii_lowercase], [string.ascii_uppercase],
    [string.ascii_letters], [string.digits]. *)
Definition ascii_lowercase : str := lit "abcdefghijklmnopqrstuvwxyz".
Definition ascii_uppercase : str := lit "ABCDEFGHIJKLMNOPQRSTUVWXYZ".
Definition ascii_letters : str := ascii_lowercase ++ ascii_uppercase.
Definition digits : str := lit "0123456789".

(** [s.encode('utf-8')] for code points below 256: one byte below 128,
    two bytes from 128 on. *)
Definition utf8_char (c : ascii) : list byte :=
  let n := N_of_ascii c in
  if (n <? 128)%N then [byte_of_ascii c]
  else [byte_of_ascii (ascii_of_N (192 + n / 64));
        byte_of_ascii (ascii_of_N (128 + n mod 64))].

Definition encode_utf8 (s : str) : list byte := flat_map utf8_char s.

(** [str(i)] for an [int]. *)
Definition str_of_int (i : Z) : str := lit (NilZero.string_of_int (Z.to_int i)).

(** [s.title()] on ASCII text: a letter that follows a letter is
    lower-cased, any other letter is upper-cased, and a character that is
    not a letter is kept and ends the current word. *)
Definition is_lower (c : ascii) : bool :=
  ((97 <=? N_of_ascii c) && (N_of_ascii c <=? 122))%N.
Definition is_upper (c : ascii) : bool :=
  ((65 <=? N_of_ascii c) && (N_of_ascii c <=? 90))%N.
Definition is_cased (c : ascii) : bool := is_lower c || is_upper c.
Definition to_upper (c : ascii) : ascii :=
  if is_lower c then ascii_of_N (N_of_ascii c - 32) else c.
Definition to_lower (c : ascii) : ascii :=
  if is_upper c then ascii_of_N (N_of_ascii c + 32) else c.

Fixpoint title_from (previous_is_cased : bool) (s : str) : str :=
  match s with
  | [] => []
  | c :: s' =>
      (if previous_is_cased then to_lower c else to_upper c)
        :: title_from (is_cased c) s'
  end.

Definition title (s : str) : str := title_from false s.

(** [int(s)] on a decimal numeral with an optional minus sign. *)
Definition int_of_str (s : str) : option Z :=
  option_map Z.of_int (NilZero.int_of_string (string_of_list_ascii s)).

(** [range(a, b)]. *)
Definition range (a b : Z) : list Z :=
  map (fun k => a + Z.of_nat k) (seq 0 (Z.to_nat (b - a))).

End Py.

(** ** The [random] module

  The generator state is a tape of raw draws and a cursor.  A draw below
  [n] is the next raw value reduced modulo [n], so every index in [0, n)
  can come out and nothing else can.  Each element of [choices], each
  [choice] and each [randint] consumes one cell of the tape. *)

Module Random.

Record state := mkState { tape : nat -> nat; pos : nat }.

Definition M (A : Type) : Type := state -> A * state.

Definition ret {A} (a : A) : M A := fun g => (a, g).

Definition bind {A B} (m : M A) (k : A -> M B) : M B :=
  fun g => let (a, g') := m g in k a g'.

Definition randbelow (n : nat) : M nat :=
  fun g => ((tape g (pos g) mod n)%nat, mkState (tape g) (S (pos g))).

(** [random.choice(seq)]: [seq[randbelow(len(seq))]].  Python raises
    IndexError on an empty sequence; every sequence the scripts pass is a
    non-empty literal, and [d] is returned in that unreachable case. *)
Definition choice {A} (d : A) (population : list A) : M A :=
  bind (randbelow (length population)) (fun i => ret (nth i population d)).

(** [random.choices(population, k=k)]: [k] independent draws. *)
Fixpoint choices {A} (d : A) (population : list A) (k : nat) : M (list A) :=
  match k with
  | O => ret []
  | S k' =>
      bind (choice d population) (fun x =>
      bind (choices d population k') (fun xs => ret (x :: xs)))
  end.

(** [random.randint(a, b)]: [a + randbelow(b - a + 1)]. *)
Definition randint (a b : Z) : M Z :=
  bind (randbelow (Z.to_nat (b - a + 1))) (fun r => ret (a + Z.of_nat r)).

End Random.

Declare Scope rand_scope.
Delimit Scope rand_scope with rand.
Notation "'let*' x ':=' m 'in' k" := (Random.bind m (fun x => k))
(at level 10, x name, m at level 100, k at level 200) : rand_scope.

(** ** Text files opened for writing

  The file object is the list of strings passed to [write], oldest first.
  With the default [newline=None] every line feed of a written string is
  replaced by [os.linesep]; with [newline=''] nothing is replaced.  The
  platform modelled is POSIX, where [os.linesep] is a single line feed;
  the encoding is UTF-8. *)

Module TextIO.

Inductive newline_mode := Universal | Untranslated.

Record file := mkFile { newline : newline_mode; writes : list Py.str }.

Definition open_w (m : newline_mode) : file := mkFile m [].

Definition write (f : file) (s : Py.str) : file :=
  mkFile (newline f) (writes f ++ [s]).

Definition os_linesep : Py.str := [Py.LF].

Definition translate_newlines (m : newline_mode) (s : Py.str) : Py.str :=
  match m with
  | Universal =>
      flat_map (fun c => if Ascii.eqb c Py.LF then os_linesep else [c]) s
  | Untranslated => s
  end.

(** The characters a reader of the file gets back. *)
Definition text (f : file) : Py.str :=
  flat_map (translate_newlines (newline f)) (writes f).

Definition on_disk (f : file) : list byte := Py.encode_utf8 (text f).

(** [os.path.getsize]. *)
Definition getsize (f : file) : Z := Z.of_nat (length (on_disk f)).

End TextIO.

(** ** scripts/generate_large_file.py *)

Module TextGen.
Import TextIO.

Definition chunk_size : Z := 1024.

(** The two alphabets of lines 16 and 27. *)
Definition chunk_alphabet : Py.str :=
  Py.ascii_letters ++ Py.digits ++ [" "%char; Py.LF].
Definition last_alphabet : Py.str :=
  Py.ascii_letters ++ Py.digits ++ [" "%char].

(** Local variables that change while the loop runs. *)
Record locals := mkLocals {
  f : file;
  bytes_written : Z;
  rand : Random.state
}.

(** How the [while] statement was left. *)
Inductive exit := ByGuard | ByBreak.

(** Lines 21-29, one pass through the body; the boolean tells whether
    [break] was reached. *)
Definition loop_body (size_in_bytes : Z) (random_text_chunk : Py.str)
           (st : locals) : locals * bool :=
  let f1 := write (f st) random_text_chunk in
  let bytes_written1 :=
    bytes_written st + Z.of_nat (length (Py.encode_utf8 random_text_chunk)) in
  if bytes_written1 + chunk_size >? size_in_bytes then
    let remaining_bytes := size_in_bytes - bytes_written1 in
    if remaining_bytes >? 0 then
      let (last_chunk, g1) :=
        Random.choices " "%char last_alphabet (Z.to_nat remaining_bytes) (rand st) in
      (mkLocals (write f1 last_chunk) bytes_written1 g1, true)
    else (mkLocals f1 bytes_written1 (rand st), true)
  else (mkLocals f1 bytes_written1 (rand st), false).

(** Lines 20-29. *)
Fixpoint while_loop (fuel : nat) (size_in_bytes : Z)
         (random_text_chunk : Py.str) (st : locals) : option (exit * locals) :=
  match fuel with
  | O => None
  | S fuel' =>
      if bytes_written st <? size_in_bytes then
        let (st', broke) := loop_body size_in_bytes random_text_chunk st in
        if broke then Some (ByBreak, st')
        else while_loop fuel' size_in_bytes random_text_chunk st'
      else Some (ByGuard, st)
  end.

(** Line 16. *)
Definition random_text_chunk : Random.M Py.str :=
  Random.choices " "%char chunk_alphabet (Z.to_nat chunk_size).

(** Lines 13-29, for a byte target already computed; [drawn] is the
    chunk of line 16 paired with the generator state after drawing it.
    The target is a Python [int].  A [float] target (a size that is not a
    whole number of megabytes, such as 1 MB + 1 KB) takes the same path
    as the integer of the same value as long as the remainder of line 25
    is not positive; where it is positive, line 27 raises TypeError on a
    [float]: that case is in [TextGenNum] below. *)
Definition generate_bytes (fuel : nat) (size_in_bytes : Z) (g : Random.state)
  : option (exit * locals) :=
  let drawn := random_text_chunk g in
  while_loop fuel size_in_bytes (fst drawn)
             (mkLocals (open_w Universal) 0 (snd drawn)).

(** Lines 12-29. *)
Definition generate_large_file (fuel : nat) (size_in_mb : Z) (g : Random.state)
  : option (exit * locals) :=
  let size_in_bytes := size_in_mb * 1024 * 1024 in
  generate_bytes fuel size_in_bytes g.

(** States of the loop: the state before the first test of the guard, and
    the state after each pass through the body.  The flag is [true] once
    [break] was executed, after which no further pass is made. *)
Inductive reachable (size_in_bytes : Z) (chunk : Py.str) (init : locals)
  : bool -> locals -> Prop :=
| reach_init : reachable size_in_bytes chunk init false init
| reach_pass st st' broke :
    reachable size_in_bytes chunk init false st ->
    bytes_written st < size_in_bytes ->
    loop_body size_in_bytes chunk st = (st', broke) ->
    reachable size_in_bytes chunk init broke st'.

End TextGen.

(** ** scripts/generate_large_file.py on an [int] or a [float]

    [size_in_mb] is not typed: a call may pass a [float].  A float is
    modelled by its exact rational value (infinities and NaN left out).
    Line 12 multiplies by a power of two, which is exact unless it
    overflows; Python compares an [int] with a [float] exactly;
    [bytes_written], a multiple of 1024, converts to [float] exactly as
    long as it is at most 2^63, and the difference of line 25 is used
    only through its sign and its type, which rounding does not change.
    So the model is the code for byte targets below 2^63, which
    [in_range] says; the theorems on floats assume it.  [random.choices]
    with a [float] for [k] raises TypeError before it draws anything. *)

Module TextGenNum.
Import TextIO TextGen.

Inductive number := PyInt (z : Z) | PyFloat (q : Q).

(** [x * m], [x - m], [m < x], [m > x] and [x > 0] for an [int] [m]. *)
Definition mul_int (x : number) (m : Z) : number :=
  match x with
  | PyInt z => PyInt (z * m)
  | PyFloat q => PyFloat (q * inject_Z m)
  end.

Definition sub_int (x : number) (m : Z) : number :=
  match x with
  | PyInt z => PyInt (z - m)
  | PyFloat q => PyFloat (q - inject_Z m)
  end.

Definition lt_int (m : Z) (x : number) : bool :=
  match x with
  | PyInt z => m <? z
  | PyFloat q => negb (Qle_bool q (inject_Z m))
  end.

Definition gt_int (m : Z) (x : number) : bool :=
  match x with
  | PyInt z => m >? z
  | PyFloat q => negb (Qle_bool (inject_Z m) q)
  end.

Definition positive (x : number) : bool :=
  match x with
  | PyInt z => z >? 0
  | PyFloat q => negb (Qle_bool q (inject_Z 0))
  end.

(** The byte targets on which the float arithmetic is exact. *)
Definition in_range (size_in_bytes : number) : bool :=
  match size_in_bytes with
  | PyInt _ => true
  | PyFloat q => negb (Qle_bool (inject_Z (2 ^ 63)) q)
  end.

(** What one pass through the body does: go on, [break], or raise
    TypeError; each with the locals at that point. *)
Inductive pass :=
| Continue (st : locals)
| Break (st : locals)
| RaiseTypeError (st : locals).

(** Lines 21-29. *)
Definition loop_body (size_in_bytes : number) (random_text_chunk : Py.str)
           (st : locals) : pass :=
  let f1 := write (f st) random_text_chunk in
  let bytes_written1 :=
    bytes_written st + Z.of_nat (length (Py.encode_utf8 random_text_chunk)) in
  if gt_int (bytes_written1 + chunk_size) size_in_bytes then
    let remaining_bytes := sub_int size_in_bytes bytes_written1 in
    if positive remaining_bytes then
      match remaining_bytes with
      | PyInt k =>
          let (last_chunk, g1) :=
            Random.choices " "%char last_alphabet (Z.to_nat k) (rand st) in
          Break (mkLocals (write f1 last_chunk) bytes_written1 g1)
      | PyFloat _ => RaiseTypeError (mkLocals f1 bytes_written1 (rand st))
      end
    else Break (mkLocals f1 bytes_written1 (rand st))
  else Continue (mkLocals f1 bytes_written1 (rand st)).

(** How a run ends: the [while] statement is left, or the exception
    leaves the function (the [with] statement closes the file). *)
Inductive outcome :=
| Returned (e : exit) (st : locals)
| Raised (st : locals).


(** Lines 20-29. *)
Fixpoint while_loop (fuel : nat) (size_in_bytes : number)
         (random_text_chunk : Py.str) (st : locals) : option outcome :=
  match fuel with
  | O => None
  | S fuel' =>
      if lt_int (bytes_written st) size_in_bytes then
        match loop_body size_in_bytes random_text_chunk st with
        | Continue st' => while_loop fuel' size_in_bytes random_text_chunk st'
        | Break st' => Some (Returned ByBreak st')
        | RaiseTypeError st' => Some (Raised st')
        end
      else Some (Returned ByGuard st)
  end.

(** Lines 13-29. *)
Definition generate_bytes (fuel : nat) (size_in_bytes : number) (g : Random.state)
  : option outcome :=
  let drawn := random_text_chunk g in
  while_loop fuel size_in_bytes (fst drawn)
             (mkLocals (open_w Universal) 0 (snd drawn)).

(** Lines 12-29. *)
Definition generate_large_file (fuel : nat) (size_in_mb : number) (g : Random.state)
  : option outcome :=
  let size_in_bytes := mul_int (mul_int size_in_mb 1024) 1024 in
  generate_bytes fuel size_in_bytes g.

End TextGenNum.

(** ** The [csv] module: writer and [DictWriter] with the default dialect

  Delimiter comma, quote character the double quote (code 34), doubled
  inside quoted fields, line terminator CR LF, minimal quoting. *)

Module Csv.
Import TextIO.

(** Values stored in a row dictionary by the script. *)
Inductive value := VInt (i : Z) | VStr (s : Py.str).

(** [str(field)], as the writer applies it to every field. *)
Definition field_text (v : value) : Py.str :=
  match v with VInt i => Py.str_of_int i | VStr s => s end.

Definition delimiter : ascii := ","%char.
Definition quotechar : ascii := "034"%char.
Definition lineterminator : Py.str := [Py.CR; Py.LF].

Definition special (c : ascii) : bool :=
  Ascii.eqb c delimiter || Ascii.eqb c quotechar
  || Ascii.eqb c Py.CR || Ascii.eqb c Py.LF.

Definition quote_field (s : Py.str) : Py.str :=
  if existsb special s then
    quotechar
      :: flat_map (fun c => if Ascii.eqb c quotechar then [quotechar; quotechar] else [c]) s
      ++ [quotechar]
  else s.

Fixpoint join (sep : Py.str) (l : list Py.str) : Py.str :=
  match l with
  | [] => []
  | [x] => x
  | x :: rest => x ++ sep ++ join sep rest
  end.

(** One line of output; a row of one empty field is written as two
    quote characters. *)
Definition format_row (fields : list Py.str) : Py.str :=
  match fields with
  | [ [] ] => [quotechar; quotechar] ++ lineterminator
  | _ => join [delimiter] (map quote_field fields) ++ lineterminator
  end.

Definition writer_writerow (f : file) (fields : list value) : file :=
  write f (format_row (map field_text fields)).

(** A row dictionary, in insertion order. *)
Definition rowdict := list (Py.str * value).

Fixpoint get (d : rowdict) (key : Py.str) (default : value) : value :=
  match d with
  | [] => default
  | (k, v) :: d' => if Py.eqb k key then v else get d' key default
  end.

Definition mem (key : Py.str) (keys : list Py.str) : bool :=
  existsb (fun k => Py.eqb k key) keys.

Record DictWriter := mkDictWriter { csvfile : file; fieldnames : list Py.str }.

(** [_dict_to_list]: a key outside [fieldnames] raises ValueError
    ([None]); a missing key yields the empty string. *)
Definition dict_to_list (w : DictWriter) (row : rowdict) : option (list value) :=
  if forallb (fun kv => mem (fst kv) (fieldnames w)) row then
    Some (map (fun key => get row key (VStr [])) (fieldnames w))
  else None.

Definition writeheader (w : DictWriter) : DictWriter :=
  mkDictWriter
    (writer_writerow (csvfile w) (map VStr (fieldnames w)))
    (fieldnames w).

Definition writerow (w : DictWriter) (row : rowdict) : option DictWriter :=
  match dict_to_list w row with
  | Some fields => Some (mkDictWriter (writer_writerow (csvfile w) fields) (fieldnames w))
  | None => None
  end.

(** *** Reading back

    A reader for the same dialect, run over the characters of the file:
    records are ended by CR, LF or CR LF outside quotes, fields are
    separated by the delimiter, a field that starts with the quote
    character runs to the closing quote, and a doubled quote inside it
    stands for one quote character. *)

Inductive mode := StartRecord | StartField | InField | InQuoted | QuoteInQuoted | AfterCR.

Record reader := mkReader {
  records : list (list Py.str);
  fields : list Py.str;
  field : Py.str;
  rmode : mode
}.

Definition end_field (r : reader) : reader :=
  mkReader (records r) (fields r ++ [field r]) [] StartField.

Definition end_record (r : reader) (m : mode) : reader :=
  mkReader (records r ++ [fields r ++ [field r]]) [] [] m.

Definition add_char (r : reader) (c : ascii) (m : mode) : reader :=
  mkReader (records r) (fields r) (field r ++ [c]) m.

Definition set_mode (r : reader) (m : mode) : reader :=
  mkReader (records r) (fields r) (field r) m.

Definition step_unquoted (r : reader) (c : ascii) : reader :=
  if Ascii.eqb c delimiter then end_field r
  else if Ascii.eqb c Py.CR then end_record r AfterCR
  else if Ascii.eqb c Py.LF then end_record r StartRecord
  else add_char r c InField.

Definition step_start_record (r : reader) (c : ascii) : reader :=
  if Ascii.eqb c Py.CR then mkReader (records r ++ [[]]) [] [] AfterCR
  else if Ascii.eqb c Py.LF then mkReader (records r ++ [[]]) [] [] StartRecord
  else if Ascii.eqb c quotechar then set_mode r InQuoted
  else step_unquoted r c.

Definition step (r : reader) (c : ascii) : reader :=
  match rmode r with
  | StartRecord => step_start_record r c
  | AfterCR =>
      if Ascii.eqb c Py.LF then set_mode r StartRecord
      else step_start_record r c
  | StartField =>
      if Ascii.eqb c quotechar then set_mode r InQuoted
      else step_unquoted r c
  | InField => step_unquoted r c
  | InQuoted =>
      if Ascii.eqb c quotechar then set_mode r QuoteInQuoted
      else add_char r c InQuoted
  | QuoteInQuoted =>
      if Ascii.eqb c quotechar then add_char r c InQuoted
      else step_unquoted r c
  end.

Definition finish (r : reader) : list (list Py.str) :=
  match rmode r with
  | StartRecord | AfterCR => records r
  | _ => records r ++ [fields r ++ [field r]]
  end.

Definition read (s : Py.str) : list (list Py.str) :=
  finish (fold_left step s (mkReader [] [] [] StartRecord)).

End Csv.


(** ** generate_large_csv.py *)

Module CsvGen.
Import TextIO Csv.
Local Open Scope rand_scope.

(** Lines 11-13; every call of the script passes [length]. *)
Definition random_string (length : nat) : Random.M Py.str :=
  Random.choices " "%char (Py.ascii_letters ++ Py.digits) length.

Definition domains : list Py.str :=
  [Py.lit "gmail.com"; Py.lit "yahoo.com"; Py.lit "outlook.com"; Py.lit "company.com"].

Definition random_email : Random.M Py.str :=
  let* username := random_string 8 in
  let* domain := Random.choice [] domains in
  Random.ret (username ++ Py.lit "@" ++ domain).

Definition random_phone : Random.M Py.str :=
  let* a := Random.randint 100 999 in
  let* b := Random.randint 100 999 in
  let* c := Random.randint 1000 9999 in
  Random.ret (Py.lit "+1-" ++ Py.str_of_int a ++ Py.lit "-" ++ Py.str_of_int b
                ++ Py.lit "-" ++ Py.str_of_int c).

Definition fieldnames : list Py.str :=
  [Py.lit "id"; Py.lit "name"; Py.lit "email"; Py.lit "phone"; Py.lit "age";
   Py.lit "city"; Py.lit "country"; Py.lit "department"; Py.lit "salary";
   Py.lit "active"].

Definition cities : list Py.str :=
  [Py.lit "New York"; Py.lit "Los Angeles"; Py.lit "Chicago"; Py.lit "Houston";
   Py.lit "Phoenix"; Py.lit "Philadelphia"; Py.lit "San Antonio";
   Py.lit "San Diego"; Py.lit "Dallas"; Py.lit "San Jose"; Py.lit "Austin";
   Py.lit "Jacksonville"].
Definition countries : list Py.str :=
  [Py.lit "USA"; Py.lit "Canada"; Py.lit "UK"; Py.lit "Germany"; Py.lit "France";
   Py.lit "Japan"; Py.lit "Australia"; Py.lit "Brazil"].
Definition departments : list Py.str :=
  [Py.lit "Engineering"; Py.lit "Marketing"; Py.lit "Sales"; Py.lit "HR";
   Py.lit "Finance"; Py.lit "Operations"; Py.lit "Legal"; Py.lit "IT"].
Definition actives : list Py.str := [Py.lit "true"; Py.lit "false"].

(** Lines 40-51: the dictionary display, evaluated top to bottom. *)
Definition make_row (i : Z) : Random.M rowdict :=
  let* first := random_string 6 in
  let* second := random_string 8 in
  let* email := random_email in
  let* phone := random_phone in
  let* age := Random.randint 22 65 in
  let* city := Random.choice [] cities in
  let* country := Random.choice [] countries in
  let* department := Random.choice [] departments in
  let* salary := Random.randint 30000 150000 in
  let* active := Random.choice [] actives in
  Random.ret
    [(Py.lit "id", VInt i);
     (Py.lit "name", VStr (Py.title first ++ Py.lit " " ++ Py.title second));
     (Py.lit "email", VStr email);
     (Py.lit "phone", VStr phone);
     (Py.lit "age", VInt age);
     (Py.lit "city", VStr city);
     (Py.lit "country", VStr country);
     (Py.lit "department", VStr department);
     (Py.lit "salary", VInt salary);
     (Py.lit "active", VStr active)].

(** Lines 39-52: the [for] loop over the identifiers; [None] stands for
    the ValueError of [writerow]. *)
Fixpoint for_rows (ids : list Z) (writer : DictWriter)
  : Random.M (option DictWriter) :=
  match ids with
  | [] => Random.ret (Some writer)
  | i :: rest =>
      let* row := make_row i in
      match writerow writer row with
      | Some writer' => for_rows rest writer'
      | None => Random.ret None
      end
  end.

(** Lines 26-52; the result is the file as it is when closed. *)
Definition main : Random.M (option file) :=
  let csvfile := open_w Untranslated in
  let writer := mkDictWriter csvfile fieldnames in
  let writer := writeheader writer in
  let* r := for_rows (Py.range 1 10001) writer in
  Random.ret (option_map Csv.csvfile r).

End CsvGen.

(** ** The [json] module on strings, lists and dictionaries

  [json.dump(obj, fp, indent=2)] with the default [ensure_ascii=True]:
  items on lines of their own, indented by two spaces per level, item
  separator a comma, key separator a colon and a space. *)

Module Json.
Import TextIO.

#[warnings="-register-all"]
Inductive value :=
| Str (s : Py.str)
| List (items : list value)
| Dict (items : list (Py.str * value)).

Definition dquote : ascii := "034"%char.
Definition backslash : ascii := "092"%char.

Definition hex_digit (n : N) : ascii :=
  nth (N.to_nat n) (Py.lit "0123456789abcdef") "0"%char.

(** One character of a string under [ensure_ascii]. *)
Definition escape_char (c : ascii) : Py.str :=
  let n := N_of_ascii c in
  if Ascii.eqb c dquote then [backslash; dquote]
  else if Ascii.eqb c backslash then [backslash; backslash]
  else if Ascii.eqb c "008"%char then [backslash; "b"%char]
  else if Ascii.eqb c "012"%char then [backslash; "f"%char]
  else if Ascii.eqb c Py.LF then [backslash; "n"%char]
  else if Ascii.eqb c Py.CR then [backslash; "r"%char]
  else if Ascii.eqb c "009"%char then [backslash; "t"%char]
  else if ((32 <=? n) && (n <=? 126))%N then [c]
  else [backslash; "u"%char; "0"%char; "0"%char; hex_digit (n / 16); hex_digit (n mod 16)].

Definition encode_string (s : Py.str) : Py.str :=
  dquote :: flat_map escape_char s ++ [dquote].

Definition newline_indent (indent level : nat) : Py.str :=
  Py.LF :: repeat " "%char (indent * level).

Fixpoint join (sep : Py.str) (l : list Py.str) : Py.str :=
  match l with
  | [] => []
  | [x] => x
  | x :: rest => x ++ sep ++ join sep rest
  end.

Fixpoint encode (indent level : nat) (v : value) {struct v} : Py.str :=
  match v with
  | Str s => encode_string s
  | List [] => Py.lit "[]"
  | List items =>
      Py.lit "[" ++ newline_indent indent (S level)
        ++ join (Py.lit "," ++ newline_indent indent (S level))
                (map (encode indent (S level)) items)
        ++ newline_indent indent level ++ Py.lit "]"
  | Dict [] => Py.lit "{}"
  | Dict items =>
      Py.lit "{" ++ newline_indent indent (S level)
        ++ join (Py.lit "," ++ newline_indent indent (S level))
                (map (fun kv => match kv with
                                | (k, x) => encode_string k ++ Py.lit ": "
                                              ++ encode indent (S level) x
                                end) items)
        ++ newline_indent indent level ++ Py.lit "}"
  end.

Definition dumps (indent : nat) (v : value) : Py.str := encode indent 0 v.

(** [dump] passes the encoding to [fp.write] piece by piece; the pieces
    concatenate to [dumps], written here in one call. *)
Definition dump (v : value) (fp : file) (indent : nat) : file :=
  write fp (dumps indent v).

(** *** Parsing back

    [json.loads] on documents made of strings, arrays and objects. *)

Definition is_ws (c : ascii) : bool :=
  Ascii.eqb c " "%char || Ascii.eqb c Py.LF || Ascii.eqb c Py.CR
  || Ascii.eqb c "009"%char.

Fixpoint skip_ws (s : Py.str) : Py.str :=
  match s with
  | c :: s' => if is_ws c then skip_ws s' else s
  | [] => []
  end.

Definition hex_value (c : ascii) : option N :=
  let n := N_of_ascii c in
  if ((48 <=? n) && (n <=? 57))%N then Some (n - 48)%N
  else if ((97 <=? n) && (n <=? 102))%N then Some (n - 87)%N
  else if ((65 <=? n) && (n <=? 70))%N then Some (n - 55)%N
  else None.

(** The characters of a string after its opening quote, up to and
    including the closing quote.  A [\u] escape is accepted for code
    points below 256. *)
Fixpoint parse_chars (s : Py.str) (acc : Py.str) {struct s}
  : option (Py.str * Py.str) :=
  match s with
  | [] => None
  | c :: s1 =>
      if Ascii.eqb c dquote then Some (acc, s1)
      else if Ascii.eqb c backslash then
        match s1 with
        | e :: s2 =>
            let simple (x : ascii) := parse_chars s2 (acc ++ [x]) in
            if Ascii.eqb e dquote then simple dquote
            else if Ascii.eqb e backslash then simple backslash
            else if Ascii.eqb e "/"%char then simple "/"%char
            else if Ascii.eqb e "b"%char then simple "008"%char
            else if Ascii.eqb e "f"%char then simple "012"%char
            else if Ascii.eqb e "n"%char then simple Py.LF
            else if Ascii.eqb e "r"%char then simple Py.CR
            else if Ascii.eqb e "t"%char then simple "009"%char
            else if Ascii.eqb e "u"%char then
              match s2 with
              | "0"%char :: "0"%char :: h :: l :: s3 =>
                  match hex_value h, hex_value l with
                  | Some a, Some b => parse_chars s3 (acc ++ [ascii_of_N (16 * a + b)])
                  | _, _ => None
                  end
              | _ => None
              end
            else None
        | [] => None
        end
      else if (N_of_ascii c <? 32)%N then None
      else parse_chars s1 (acc ++ [c])
  end.

Section Parser.
Variable parse_value : Py.str -> option (value * Py.str).

(** After an opening bracket and a first item: further items. *)
Fixpoint parse_items (fuel : nat) (s : Py.str) (acc : list value)
  : option (list value * Py.str) :=
  match fuel with
  | O => None
  | S fuel' =>
      match skip_ws s with
      | c :: s1 =>
          if Ascii.eqb c "]"%char then Some (acc, s1)
          else if Ascii.eqb c ","%char then
            match parse_value (skip_ws s1) with
            | Some (v, s2) => parse_items fuel' s2 (acc ++ [v])
            | None => None
            end
          else None
      | [] => None
      end
  end.

Definition parse_pair (s : Py.str) : option (Py.str * value * Py.str) :=
  match s with
  | c :: s1 =>
      if Ascii.eqb c dquote then
        match parse_chars s1 [] with
        | Some (k, s2) =>
            match skip_ws s2 with
            | d :: s3 =>
                if Ascii.eqb d ":"%char then
                  match parse_value (skip_ws s3) with
                  | Some (v, s4) => Some (k, v, s4)
                  | None => None
                  end
                else None
            | [] => None
            end
        | None => None
        end
      else None
  | [] => None
  end.

Fixpoint parse_pairs (fuel : nat) (s : Py.str) (acc : list (Py.str * value))
  : option (list (Py.str * value) * Py.str) :=
  match fuel with
  | O => None
  | S fuel' =>
      match skip_ws s with
      | c :: s1 =>
          if Ascii.eqb c "}"%char then Some (acc, s1)
          else if Ascii.eqb c ","%char then
            match parse_pair (skip_ws s1) with
            | Some (k, v, s2) => parse_pairs fuel' s2 (acc ++ [(k, v)])
            | None => None
            end
          else None
      | [] => None
      end
  end.
End Parser.

(** A value at the head of [s] (no leading white space); [fuel] bounds
    the nesting depth and the number of items of a container. *)
Fixpoint parse_value (fuel : nat) (s : Py.str) : option (value * Py.str) :=
  match fuel with
  | O => None
  | S fuel' =>
      match s with
      | c :: s1 =>
          if Ascii.eqb c dquote then
            match parse_chars s1 [] with
            | Some (x, s2) => Some (Str x, s2)
            | None => None
            end
          else if Ascii.eqb c "["%char then
            match skip_ws s1 with
            | d :: s2 =>
                if Ascii.eqb d "]"%char then Some (List [], s2)
                else
                  match parse_value fuel' (skip_ws s1) with
                  | Some (v, s3) =>
                      match parse_items (parse_value fuel') (length s) s3 [v] with
                      | Some (items, s4) => Some (List items, s4)
                      | None => None
                      end
                  | None => None
                  end
            | [] => None
            end
          else if Ascii.eqb c "{"%char then
            match skip_ws s1 with
            | d :: s2 =>
                if Ascii.eqb d "}"%char then Some (Dict [], s2)
                else
                  match parse_pair (parse_value fuel') (skip_ws s1) with
                  | Some (k, v, s3) =>
                      match parse_pairs (parse_value fuel') (length s) s3 [(k, v)] with
                      | Some (items, s4) => Some (Dict items, s4)
                      | None => None
                      end
                  | None => None
                  end
            | [] => None
            end
          else None
      | [] => None
      end
  end.

(** The whole text is one value, white space around it allowed. *)
Definition loads (s : Py.str) : option value :=
  match parse_value (length s) (skip_ws s) with
  | Some (v, rest) => match skip_ws rest with [] => Some v | _ => None end
  | None => None
  end.

End Json.

(** ** generate_large_json.py *)

Module JsonGen.
Import TextIO Json.

(** Lines 4-9: the dictionary built for index [i]. *)
Definition entry (i : Z) : value :=
  Dict [(Py.lit "method", Str (Py.lit "GET"));
        (Py.lit "requestURI", Str (Py.lit "/bulk/" ++ Py.str_of_int i));
        (Py.lit "headers", Dict [(Py.lit "X", Str (Py.str_of_int i))]);
        (Py.lit "content", Str (Py.str_of_int i))].

(** Lines 3-11. *)
Definition data : list value := map entry (Py.range 0 1000).

(** Lines 13-14; the file as it is when closed. *)
Definition main : file := dump (List data) (open_w Universal) 2.

End JsonGen.

(** ** Definitions used in the statements *)

(** Two concrete tapes for examples. *)
Definition tape0 (n : nat) : nat := (7 * n + 3)%nat.
Definition g0 : Random.state := Random.mkState tape0 0.
Definition tape1 (n : nat) : nat := (n * n + 11)%nat.
Definition g1 : Random.state := Random.mkState tape1 5.

Module TextSpec.
Import TextIO TextGen.

(** The chunk of line 16 and the locals on entry to the loop. *)
Definition chunk_of (g : Random.state) : Py.str := fst (random_text_chunk g).
Definition init_of (g : Random.state) : locals :=
  mkLocals (open_w Universal) 0 (snd (random_text_chunk g)).

(** The locals after [n] further passes that did not break. *)
Definition after_full (chunk : Py.str) (st : locals) (n : nat) : locals :=
  mkLocals (mkFile (newline (f st)) (writes (f st) ++ repeat chunk n))
           (bytes_written st + 1024 * Z.of_nat n)
           (rand st).

(** Lines 25-28 of the pass that breaks. *)
Definition closing (size_in_bytes : Z) (st : locals) : locals :=
  let remaining_bytes := size_in_bytes - bytes_written st in
  if remaining_bytes >? 0 then
    let (last_chunk, g1) :=
      Random.choices " "%char last_alphabet (Z.to_nat remaining_bytes) (rand st) in
    mkLocals (write (f st) last_chunk) (bytes_written st) g1
  else st.

Definition seven_bit (c : ascii) : bool := (N_of_ascii c <? 128)%N.

(** The locals at the end of a run whose target is [k] whole chunks. *)
Definition whole_chunks_final (k : Z) (g : Random.state) : locals :=
  mkLocals (mkFile Universal (repeat (chunk_of g) (Z.to_nat k)))
           (1024 * k) (snd (random_text_chunk g)).

(** The last call of [write] passed the empty string. *)
Definition trailing_empty_write (st : locals) : Prop :=
  exists ws, writes (f st) = ws ++ [ [] ].

End TextSpec.

Module CsvSpec.
Import TextIO Csv CsvGen.

(** The generator [g] moved [n] cells on. *)
Definition advance (g : Random.state) (n : nat) : Random.state :=
  Random.mkState (Random.tape g) (n + Random.pos g).

(** The draw below [n] read from the cell [k] places after the cursor. *)
Definition draw (g : Random.state) (k n : nat) : nat :=
  (Random.tape g (k + Random.pos g) mod n)%nat.

Definition pick {A} (d : A) (population : list A) (g : Random.state) (k : nat) : A :=
  nth (draw g k (length population)) population d.

Definition picks {A} (d : A) (population : list A) (g : Random.state)
           (k len : nat) : list A :=
  map (fun i => pick d population g (k + i)%nat) (seq 0 len).

Definition int_at (g : Random.state) (k : nat) (a b : Z) : Z :=
  a + Z.of_nat (draw g k (Z.to_nat (b - a + 1))).

Definition alnum : Py.str := Py.ascii_letters ++ Py.digits.

(** The two random words of the name: cells 0-5 and cells 6-13. *)
Definition first_at (g : Random.state) : Py.str := picks " "%char alnum g 0 6.
Definition second_at (g : Random.state) : Py.str := picks " "%char alnum g 6 8.

Definition name_at (g : Random.state) : Py.str :=
  Py.title (first_at g) ++ Py.lit " " ++ Py.title (second_at g).
Definition email_at (g : Random.state) : Py.str :=
  picks " "%char alnum g 14 8 ++ Py.lit "@" ++ pick [] domains g 22.
Definition phone_at (g : Random.state) : Py.str :=
  Py.lit "+1-" ++ Py.str_of_int (int_at g 23 100 999) ++ Py.lit "-"
    ++ Py.str_of_int (int_at g 24 100 999) ++ Py.lit "-"
    ++ Py.str_of_int (int_at g 25 1000 9999).
Definition age_at (g : Random.state) : Z := int_at g 26 22 65.
Definition city_at (g : Random.state) : Py.str := pick [] cities g 27.
Definition country_at (g : Random.state) : Py.str := pick [] countries g 28.
Definition department_at (g : Random.state) : Py.str := pick [] departments g 29.
Definition salary_at (g : Random.state) : Z := int_at g 30 30000 150000.
Definition active_at (g : Random.state) : Py.str := pick [] actives g 31.

(** The dictionary [make_row] builds from the generator state [g]. *)
Definition row_at (i : Z) (g : Random.state) : rowdict :=
  [(Py.lit "id", VInt i);
   (Py.lit "name", VStr (name_at g));
   (Py.lit "email", VStr (email_at g));
   (Py.lit "phone", VStr (phone_at g));
   (Py.lit "age", VInt (age_at g));
   (Py.lit "city", VStr (city_at g));
   (Py.lit "country", VStr (country_at g));
   (Py.lit "department", VStr (department_at g));
   (Py.lit "salary", VInt (salary_at g));
   (Py.lit "active", VStr (active_at g))].

(** The fields of the line written for it. *)
Definition line_at (i : Z) (g : Random.state) : list Py.str :=
  [Py.str_of_int i; name_at g; email_at g; phone_at g;
   Py.str_of_int (age_at g); city_at g; country_at g; department_at g;
   Py.str_of_int (salary_at g); active_at g].

Fixpoint lines_at (ids : list Z) (g : Random.state) : list (list Py.str) :=
  match ids with
  | [] => []
  | i :: rest => line_at i g :: lines_at rest (advance g 32)
  end.

(** The file [main] leaves: one write per line, the header first. *)
Definition written_file (g : Random.state) : file :=
  mkFile Untranslated
         (map format_row (CsvGen.fieldnames :: lines_at (Py.range 1 10001) g)).

(** A field the writer leaves unquoted and the reader takes as it is. *)
Definition plain (s : Py.str) : bool := forallb (fun c => negb (special c)) s.
Definition good (s : Py.str) : bool :=
  match s with [] => false | _ => plain s end.

(** Reader states in which an unquoted character starts or continues a
    field. *)
Definition field_start (r : reader) : Prop :=
  rmode r = StartRecord \/ rmode r = StartField \/ rmode r = InField.

(** The character [s.title()] puts in place of [c], given the character
    before it in [s], if any. *)
Definition title_char (previous : option ascii) (c : ascii) : ascii :=
  match previous with
  | Some p => if Py.is_cased p then Py.to_lower c else Py.to_upper c
  | None => Py.to_upper c
  end.

Definition is_digit (c : ascii) : bool :=
  ((48 <=? N_of_ascii c) && (N_of_ascii c <=? 57))%N.

(** What the specification says of the fields [age], [salary] and [active] of a
    line read back from the file. *)
Definition ranges_ok (r : list Py.str) : Prop :=
  exists age salary,
    nth 4 r [] = Py.str_of_int age /\ 22 <= age <= 65
    /\ nth 8 r [] = Py.str_of_int salary /\ 30000 <= salary <= 150000
    /\ (nth 9 r [] = Py.lit "true" \/ nth 9 r [] = Py.lit "false").

(** First character upper-cased, every other character lower-cased. *)
Definition capitalize (s : Py.str) : Py.str :=
  match s with
  | [] => []
  | c :: rest => Py.to_upper c :: map Py.to_lower rest
  end.

End CsvSpec.

Module JsonSpec.
Import Json.

(** [obj[key]] on a dictionary; [None] for a missing key or another kind
    of value. *)
Definition lookup (key : Py.str) (v : value) : option value :=
  match v with
  | Dict items =>
      (fix find (l : list (Py.str * value)) : option value :=
         match l with
         | [] => None
         | (k, x) :: l' => if Py.eqb k key then Some x else find l'
         end) items
  | _ => None
  end.

(** A character [ensure_ascii] leaves as it is. *)
Definition json_plain (c : ascii) : bool :=
  ((32 <=? N_of_ascii c) && (N_of_ascii c <=? 126))%N
  && negb (Ascii.eqb c dquote) && negb (Ascii.eqb c backslash).

(** Values all of whose strings and keys need no escape. *)
Fixpoint plain_value (v : value) : bool :=
  match v with
  | Str s => forallb json_plain s
  | List items => forallb plain_value items
  | Dict items =>
      forallb (fun kv => match kv with
                         | (k, x) => forallb json_plain k && plain_value x
                         end) items
  end.

(** Nesting depth. *)
Fixpoint depth (v : value) : nat :=
  match v with
  | Str _ => 1
  | List items => S (fold_right (fun x m => Nat.max (depth x) m) 0%nat items)
  | Dict items =>
      S (fold_right (fun kv m => match kv with
                                 | (_, x) => Nat.max (depth x) m
                                 end) 0%nat items)
  end.

(** An encoded value starts with a quote, a bracket or a brace. *)
Definition opener (c : ascii) : Prop :=
  c = dquote \/ c = "["%char \/ c = "{"%char.

(** The text of one key and its value, as [encode] lays it out. *)
Definition pair_text (indent level : nat) (kv : Py.str * value) : Py.str :=
  match kv with
  | (k, x) => encode_string k ++ Py.lit ": " ++ encode indent (S level) x
  end.

(** The array the script would build for a count of [n] entries. *)
Definition data_of (n : Z) : list value := map JsonGen.entry (Py.range 0 n).

End JsonSpec.

(** * Proofs *)

(** Linear arithmetic with division by a constant. *)
Ltac div_lia := Z.to_euclidean_division_equations; lia.

(** ** The random module *)

Section RandomFacts.
Context {A : Type}.
Variables (d : A) (population : list A).

Lemma choice_in g :
  population <> [] -> In (fst (Random.choice d population g)) population.
Proof.
  intros Hne. unfold Random.choice, Random.bind, Random.randbelow, Random.ret.
  simpl. apply nth_In. apply Nat.mod_upper_bound.
  destruct population; [congruence | simpl; lia].
Qed.

Lemma choices_length k : forall g,
  length (fst (Random.choices d population k g)) = k.
Proof.
  induction k as [|k IH]; intros g; simpl; [reflexivity|].
  unfold Random.bind.
  destruct (Random.choice d population g) as [x g1].
  specialize (IH g1).
  destruct (Random.choices d population k g1) as [xs g2]. simpl in *.
  now rewrite IH.
Qed.

Lemma choices_in k : forall g,
  population <> [] ->
  Forall (fun x => In x population) (fst (Random.choices d population k g)).
Proof.
  induction k as [|k IH]; intros g Hne; simpl; [constructor|].
  unfold Random.bind.
  pose proof (choice_in g Hne) as Hx.
  destruct (Random.choice d population g) as [x g1].
  specialize (IH g1 Hne).
  destruct (Random.choices d population k g1) as [xs g2]. simpl in *.
  now constructor.
Qed.

End RandomFacts.

Lemma randint_range a b g :
a <= b -> a <= fst (Random.randint a b g) <= b.
Proof.
intros Hab. unfold Random.randint, Random.bind, Random.randbelow, Random.ret.
simpl.
assert (Hlt : (Random.tape g (Random.pos g) mod Z.to_nat (b - a + 1)
               < Z.to_nat (b - a + 1))%nat)
  by (apply Nat.mod_upper_bound; lia).
lia.
Qed.

(** ** Text files *)

Section TextFacts.
Import TextIO TextGen TextSpec.

Lemma translate_posix m s : translate_newlines m s = s.
Proof.
  destruct m; [|reflexivity]. simpl.
  induction s as [|c s IH]; simpl; [reflexivity|].
  rewrite IH. destruct (Ascii.eqb_spec c Py.LF) as [->|]; reflexivity.
Qed.

Lemma text_concat fl : text fl = concat (writes fl).
Proof.
  unfold text. rewrite flat_map_concat_map. f_equal.
  rewrite <- (map_id (writes fl)) at 2.
  apply map_ext. intros; apply translate_posix.
Qed.

Lemma encode_seven_bit s :
  forallb seven_bit s = true -> length (Py.encode_utf8 s) = length s.
Proof.
  induction s as [|c s IH]; simpl; [reflexivity|].
  intros H. apply andb_prop in H as [Hc Hs].
  unfold Py.utf8_char. unfold seven_bit in Hc. rewrite Hc. simpl.
  f_equal. now apply IH.
Qed.

Lemma seven_bit_app s t :
  forallb seven_bit (s ++ t) = forallb seven_bit s && forallb seven_bit t.
Proof. apply forallb_app. Qed.

Lemma drawn_seven_bit alphabet k g :
  alphabet <> [] ->
  forallb seven_bit alphabet = true ->
  forallb seven_bit (fst (Random.choices " "%char alphabet k g)) = true.
Proof.
  intros Hne Hal. apply forallb_forall. intros c Hc.
  pose proof (choices_in " "%char alphabet k g Hne) as Hin.
  rewrite Forall_forall in Hin.
  rewrite forallb_forall in Hal. auto.
Qed.

Lemma chunk_length g : length (chunk_of g) = 1024%nat.
Proof. unfold chunk_of, random_text_chunk. now rewrite choices_length. Qed.

Lemma chunk_seven_bit g : forallb seven_bit (chunk_of g) = true.
Proof.
  unfold chunk_of, random_text_chunk.
  apply drawn_seven_bit; [discriminate | reflexivity].
Qed.

Lemma chunk_encoded g :
  Z.of_nat (length (Py.encode_utf8 (chunk_of g))) = 1024.
Proof.
  rewrite encode_seven_bit by apply chunk_seven_bit.
  now rewrite chunk_length.
Qed.

Lemma after_full_S chunk st n :
  after_full chunk
    (mkLocals (write (f st) chunk) (bytes_written st + 1024) (rand st)) n
  = after_full chunk st (S n).
Proof.
  unfold after_full, write. cbn [f writes newline bytes_written rand].
  f_equal; [|lia].
  f_equal. rewrite <- app_assoc. reflexivity.
Qed.

(** From a state that has made [j] full passes, the loop breaks after
    [max 1 (size / 1024) - j] more passes. *)
Lemma while_loop_run chunk size :
  Z.of_nat (length (Py.encode_utf8 chunk)) = 1024 ->
  0 < size ->
  forall fuel st j (n : nat),
    bytes_written st = 1024 * j ->
    0 <= j ->
    (j = 0 \/ 1024 * (j + 1) <= size) ->
    Z.of_nat n = Z.max 1 (size / 1024) - j ->
    (n <= fuel)%nat ->
    while_loop fuel size chunk st
    = Some (ByBreak, closing size (after_full chunk st n)).
Proof.
  intros Hc Hs.
  induction fuel as [|fuel IH]; intros st j n Hbw Hj Hroom Hn Hfuel.
  - exfalso. assert (n = 0%nat) by lia. subst n. div_lia.
  - simpl.
    assert (Hguard : (bytes_written st <? size) = true) by (apply Z.ltb_lt; lia).
    rewrite Hguard. unfold loop_body. rewrite Hc. unfold chunk_size.
    destruct (Z.gtb_spec (bytes_written st + 1024 + 1024) size) as [Hover|Hfit].
    + assert (Hn1 : n = 1%nat) by div_lia. subst n.
      unfold closing, after_full. simpl.
      replace (bytes_written st + 1024 * 1) with (bytes_written st + 1024) by lia.
      destruct (size - (bytes_written st + 1024) >? 0).
      * unfold write. simpl.
        destruct (Random.choices " "%char last_alphabet
                    (Z.to_nat (size - (bytes_written st + 1024))) (rand st))
          as [last_chunk g1].
        reflexivity.
      * reflexivity.
    + destruct n as [|n]; [div_lia|].
      rewrite (IH _ (j + 1) n); cbn [bytes_written]; try div_lia.
      now rewrite after_full_S.
Qed.

Lemma while_loop_mono size chunk : forall fuel fuel' st r,
  while_loop fuel size chunk st = Some r ->
  (fuel <= fuel')%nat ->
  while_loop fuel' size chunk st = Some r.
Proof.
  induction fuel as [|fuel IH]; intros fuel' st r Hrun Hle; [discriminate|].
  destruct fuel' as [|fuel']; [lia|].
  simpl in *.
  destruct (bytes_written st <? size); [|assumption].
  destruct (loop_body size chunk st) as [st' broke].
  destruct broke; [assumption|].
  apply IH; [assumption | lia].
Qed.

Lemma while_loop_deterministic size chunk fuel fuel' st r r' :
  while_loop fuel size chunk st = Some r ->
  while_loop fuel' size chunk st = Some r' ->
  r = r'.
Proof.
  intros H H'.
  apply (while_loop_mono _ _ _ (Nat.max fuel fuel')) in H; [|lia].
  apply (while_loop_mono _ _ _ (Nat.max fuel fuel')) in H'; [|lia].
  congruence.
Qed.

Lemma while_loop_guard_fails fuel size chunk st :
  size <= bytes_written st ->
  while_loop (S fuel) size chunk st = Some (ByGuard, st).
Proof.
  intros H. simpl.
  destruct (Z.ltb_spec (bytes_written st) size); [lia | reflexivity].
Qed.

Lemma generate_bytes_unfold fuel size g :
  generate_bytes fuel size g = while_loop fuel size (chunk_of g) (init_of g).
Proof.
  unfold generate_bytes, chunk_of, init_of. cbv zeta. reflexivity.
Qed.

(** A positive target: the run breaks after [max 1 (size / 1024)] passes. *)
Lemma generate_bytes_positive size g fuel :
  0 < size ->
  (Z.to_nat (Z.max 1 (size / 1024)) <= fuel)%nat ->
  generate_bytes fuel size g
  = Some (ByBreak,
          closing size
            (after_full (chunk_of g) (init_of g)
               (Z.to_nat (Z.max 1 (size / 1024))))).
Proof.
  intros Hs Hfuel. rewrite generate_bytes_unfold.
  apply (while_loop_run _ _ (chunk_encoded g) Hs fuel (init_of g) 0);
    cbn [init_of bytes_written]; try lia.
Qed.

Lemma generate_bytes_nonpositive size g fuel :
  size <= 0 ->
  generate_bytes (S fuel) size g = Some (ByGuard, init_of g).
Proof.
  intros Hs. rewrite generate_bytes_unfold.
  now apply while_loop_guard_fails.
Qed.

Lemma generate_bytes_whole_chunks k g fuel :
  1 <= k ->
  (Z.to_nat k <= fuel)%nat ->
  generate_bytes fuel (1024 * k) g = Some (ByBreak, whole_chunks_final k g).
Proof.
  intros Hk Hfuel.
  assert (Hq : Z.max 1 (1024 * k / 1024) = k) by div_lia.
  rewrite generate_bytes_positive by (rewrite ?Hq; lia).
  rewrite Hq. f_equal. f_equal.
  unfold closing, after_full, init_of, whole_chunks_final.
  cbn [f writes newline bytes_written rand open_w app].
  destruct (Z.gtb_spec (1024 * k - (0 + 1024 * Z.of_nat (Z.to_nat k))) 0);
    [lia|].
  f_equal. lia.
Qed.

Lemma encode_app s t :
  Py.encode_utf8 (s ++ t) = Py.encode_utf8 s ++ Py.encode_utf8 t.
Proof. apply flat_map_app. Qed.

Lemma getsize_write fl s :
  getsize (write fl s) = getsize fl + Z.of_nat (length (Py.encode_utf8 s)).
Proof.
  unfold getsize, on_disk. rewrite !text_concat. unfold write.
  cbn [writes]. rewrite concat_app, encode_app, length_app.
  cbn [concat]. rewrite app_nil_r. lia.
Qed.

Lemma getsize_repeat m chunk n :
  Z.of_nat (length (Py.encode_utf8 chunk)) = 1024 ->
  getsize (mkFile m (repeat chunk n)) = 1024 * Z.of_nat n.
Proof.
  intros Hc. unfold getsize, on_disk. rewrite text_concat. cbn [writes].
  induction n as [|n IH]; [reflexivity|].
  cbn [repeat concat]. rewrite encode_app, length_app. lia.
Qed.

Lemma getsize_whole_chunks k g :
  0 <= k -> getsize (f (whole_chunks_final k g)) = 1024 * k.
Proof.
  intros Hk. unfold whole_chunks_final. cbn [f].
  rewrite getsize_repeat by apply chunk_encoded. lia.
Qed.

End TextFacts.

(** ** scripts/generate_large_file.py: properties *)

Section TextClaims.
Import TextIO TextGen TextSpec.

Lemma generate_large_file_positive size_in_mb g fuel :
  1 <= size_in_mb ->
  (Z.to_nat (1024 * size_in_mb) <= fuel)%nat ->
  generate_large_file fuel size_in_mb g
  = Some (ByBreak, whole_chunks_final (1024 * size_in_mb) g).
Proof.
  intros Hmb Hfuel. unfold generate_large_file.
  replace (size_in_mb * 1024 * 1024) with (1024 * (1024 * size_in_mb)) by lia.
  apply generate_bytes_whole_chunks; lia.
Qed.

Lemma generate_large_file_zero g fuel :
  generate_large_file (S fuel) 0 g = Some (ByGuard, init_of g).
Proof.
  unfold generate_large_file. apply generate_bytes_nonpositive. lia.
Qed.

(** C1.  For every nonnegative integer [size_in_mb] the run returns, and
    the file it leaves has exactly [size_in_mb * 1024 * 1024] bytes on
    disk; for 0 MB the file is created and empty.  The same holds for
    the targets of 1 MB and 50 MB, and for the target of 1 MB + 1 KB,
    which is 1,049,600 bytes and reaches the loop as a byte count. *)
Theorem C1_exact_size (size_in_mb : Z) (g : Random.state) (fuel : nat) :
  0 <= size_in_mb ->
  (Z.to_nat (1024 * size_in_mb) < fuel)%nat ->
  (exists e st,
      generate_large_file fuel size_in_mb g = Some (e, st)
      /\ getsize (f st) = size_in_mb * 1024 * 1024
      /\ (size_in_mb = 0 -> on_disk (f st) = []))
  /\ (exists e st,
        generate_large_file (Z.to_nat 1024) 1 g = Some (e, st)
        /\ getsize (f st) = 1048576)
  /\ (exists e st,
        generate_bytes (Z.to_nat 1025) (1 * 1024 * 1024 + 1024) g = Some (e, st)
        /\ getsize (f st) = 1048576 + 1024)
  /\ (exists e st,
        generate_large_file (Z.to_nat 51200) 50 g = Some (e, st)
        /\ getsize (f st) = 52428800).
Proof.
  intros Hmb Hfuel. repeat split.
  - destruct (Z.eq_dec size_in_mb 0) as [->|Hnz].
    + destruct fuel as [|fuel]; [lia|].
      exists ByGuard, (init_of g). rewrite generate_large_file_zero.
      repeat split; reflexivity.
    + exists ByBreak, (whole_chunks_final (1024 * size_in_mb) g).
      rewrite generate_large_file_positive by lia.
      repeat split; [|lia].
      rewrite getsize_whole_chunks; lia.
  - exists ByBreak, (whole_chunks_final (1024 * 1) g).
    rewrite generate_large_file_positive by lia.
    split; [reflexivity|]. rewrite getsize_whole_chunks; lia.
  - exists ByBreak, (whole_chunks_final 1025 g).
    change (1 * 1024 * 1024 + 1024) with (1024 * 1025).
    rewrite generate_bytes_whole_chunks by lia.
    split; [reflexivity|]. rewrite getsize_whole_chunks; lia.
  - exists ByBreak, (whole_chunks_final (1024 * 50) g).
    rewrite generate_large_file_positive by lia.
    split; [reflexivity|]. rewrite getsize_whole_chunks; lia.
Qed.

Lemma C1_exact_size_witness :
  0 <= 3 /\ (Z.to_nat (1024 * 3) < Z.to_nat 3073)%nat /\
  exists e st,
    generate_large_file (Z.to_nat 3073) 3 g0 = Some (e, st)
    /\ getsize (f st) = 3 * 1024 * 1024
    /\ (3 = 0 -> on_disk (f st) = []).
Proof.
  split; [lia|]. split; [lia|].
  apply (C1_exact_size 3 g0 (Z.to_nat 3073)); lia.
Defined.

(** C2, as the code has it.  When the target is a positive exact
    multiple of the chunk size, the pass that breaks computes zero
    remaining bytes, issues no further write and draws nothing more from
    the generator: the file received one write of the full chunk per
    pass and nothing else.  A request of 2 MB makes exactly 2048 writes,
    each of the 1024-character chunk, 2,097,152 bytes in all. *)
Theorem C2_exact_multiple (k : Z) (g : Random.state) (fuel : nat) :
  1 <= k ->
  (Z.to_nat k <= fuel)%nat ->
  (exists st,
      generate_bytes fuel (1024 * k) g = Some (ByBreak, st)
      /\ 1024 * k - bytes_written st = 0
      /\ writes (f st) = repeat (chunk_of g) (Z.to_nat k)
      /\ rand st = snd (random_text_chunk g)
      /\ ~ trailing_empty_write st)
  /\ (exists st,
        generate_large_file (Z.to_nat 2048) 2 g = Some (ByBreak, st)
        /\ writes (f st) = repeat (chunk_of g) (Z.to_nat 2048)
        /\ Forall (fun w => length w = 1024%nat) (writes (f st))
        /\ getsize (f st) = 2097152).
Proof.
  intros Hk Hfuel.
  assert (Hno : forall n, ~ exists ws, repeat (chunk_of g) n = ws ++ [ [] ]).
  { intros n [ws Hws].
    assert (Hin : In [] (repeat (chunk_of g) n))
      by (rewrite Hws; apply in_or_app; right; now left).
    apply repeat_spec in Hin.
    pose proof (chunk_length g) as Hlen. rewrite <- Hin in Hlen.
    discriminate Hlen. }
  split.
  - exists (whole_chunks_final k g).
    rewrite generate_bytes_whole_chunks by assumption.
    unfold trailing_empty_write, whole_chunks_final.
    cbn [f writes bytes_written rand].
    repeat split; [lia | apply Hno].
  - exists (whole_chunks_final (1024 * 2) g).
    rewrite generate_large_file_positive by lia.
    split; [reflexivity|]. split; [reflexivity|]. split.
    + unfold whole_chunks_final. cbn [f writes].
      apply Forall_forall. intros w Hw. apply repeat_spec in Hw. subst w.
      apply chunk_length.
    + rewrite getsize_whole_chunks; lia.
Qed.

Lemma C2_exact_multiple_witness :
  1 <= 2048 /\ (Z.to_nat 2048 <= Z.to_nat 2048)%nat /\
  exists st,
    generate_bytes (Z.to_nat 2048) (1024 * 2048) g0 = Some (ByBreak, st)
    /\ 1024 * 2048 - bytes_written st = 0
    /\ writes (f st) = repeat (chunk_of g0) (Z.to_nat 2048)
    /\ rand st = snd (random_text_chunk g0)
    /\ ~ trailing_empty_write st.
Proof.
  split; [lia|]. split; [lia|].
  apply (C2_exact_multiple 2048 g0 (Z.to_nat 2048)); lia.
Defined.

(** C2 as the specification words it fails: the 2 MB run does not end with a
    write of a zero-length chunk. *)
Lemma C2_no_zero_length_write :
  ~ (exists e st,
        generate_large_file (Z.to_nat 2048) 2 g0 = Some (e, st)
        /\ trailing_empty_write st).
Proof.
  intros (e & st & Hrun & ws & Hws).
  rewrite generate_large_file_positive in Hrun by lia.
  injection Hrun as _ <-.
  unfold whole_chunks_final in Hws. cbn [f writes] in Hws.
  assert (Hin : In [] (ws ++ [ [] ]))
    by (apply in_or_app; right; now left).
  rewrite <- Hws in Hin. apply repeat_spec in Hin.
  pose proof (chunk_length g0) as Hlen. rewrite <- Hin in Hlen.
  discriminate Hlen.
Qed.

Lemma text_run_exit size_in_mb g fuel :
  0 <= size_in_mb ->
  (Z.to_nat (1024 * size_in_mb) < fuel)%nat ->
  exists st,
    generate_large_file fuel size_in_mb g
    = Some (if size_in_mb =? 0 then ByGuard else ByBreak, st)
    /\ length (writes (f st)) = Z.to_nat (1024 * size_in_mb).
Proof.
  intros Hmb Hfuel.
  destruct (Z.eqb_spec size_in_mb 0) as [Hz|Hnz].
  - destruct fuel as [|fuel]; [lia|]. subst size_in_mb.
    exists (init_of g). split; [apply generate_large_file_zero | reflexivity].
  - exists (whole_chunks_final (1024 * size_in_mb) g).
    split; [apply generate_large_file_positive; lia|].
    unfold whole_chunks_final. cbn [f writes]. apply repeat_length.
Qed.

Lemma text_run_size size_in_mb g fuel :
  0 <= size_in_mb ->
  (Z.to_nat (1024 * size_in_mb) < fuel)%nat ->
  exists e st,
    generate_large_file fuel size_in_mb g = Some (e, st)
    /\ getsize (f st) = size_in_mb * 1024 * 1024.
Proof.
  intros Hmb Hfuel.
  destruct (Z.eq_dec size_in_mb 0) as [->|Hnz].
  - destruct fuel as [|fuel]; [lia|].
    exists ByGuard, (init_of g). rewrite generate_large_file_zero.
    split; reflexivity.
  - exists ByBreak, (whole_chunks_final (1024 * size_in_mb) g).
    rewrite generate_large_file_positive by lia.
    split; [reflexivity|].
    rewrite getsize_whole_chunks; lia.
Qed.

(** C7.  For every nonnegative integer [size_in_mb] the loop terminates:
    with a zero target the guard fails at once and no pass is made;
    otherwise the run makes [1024 * size_in_mb] passes and leaves through
    [break].  Any amount of fuel that lets the run return gives this same
    result. *)
Theorem C7_loop_terminates (size_in_mb : Z) (g : Random.state) (fuel : nat) :
  0 <= size_in_mb ->
  (Z.to_nat (1024 * size_in_mb) < fuel)%nat ->
  exists st,
    generate_large_file fuel size_in_mb g
    = Some (if size_in_mb =? 0 then ByGuard else ByBreak, st)
    /\ length (writes (f st)) = Z.to_nat (1024 * size_in_mb)
    /\ (forall fuel' r,
          generate_large_file fuel' size_in_mb g = Some r ->
          r = (if size_in_mb =? 0 then ByGuard else ByBreak, st)).
Proof.
  intros Hmb Hfuel.
  assert (Hsame : forall r r' fuel',
             generate_large_file fuel size_in_mb g = Some r ->
             generate_large_file fuel' size_in_mb g = Some r' ->
             r' = r).
  { intros r r' fuel'. unfold generate_large_file.
    rewrite !generate_bytes_unfold. intros H H'.
    exact (while_loop_deterministic _ _ _ _ _ _ _ H' H). }
  destruct (Z.eqb_spec size_in_mb 0) as [Hz|Hnz].
  - destruct fuel as [|fuel]; [lia|]. subst size_in_mb.
    pose proof (generate_large_file_zero g fuel) as Hrun.
    exists (init_of g). split; [exact Hrun|]. split; [reflexivity|].
    intros fuel' r Hr. exact (Hsame _ _ _ Hrun Hr).
  - assert (Hrun : generate_large_file fuel size_in_mb g
                   = Some (ByBreak, whole_chunks_final (1024 * size_in_mb) g))
      by (apply generate_large_file_positive; lia).
    exists (whole_chunks_final (1024 * size_in_mb) g).
    split; [exact Hrun|]. split.
    + unfold whole_chunks_final. cbn [f writes]. apply repeat_length.
    + intros fuel' r Hr. exact (Hsame _ _ _ Hrun Hr).
Qed.

Lemma C7_loop_terminates_witness :
  0 <= 1 /\ (Z.to_nat (1024 * 1) < Z.to_nat 1025)%nat /\
  exists st,
    generate_large_file (Z.to_nat 1025) 1 g0 = Some (ByBreak, st)
    /\ length (writes (f st)) = Z.to_nat (1024 * 1)
    /\ (forall fuel' r,
          generate_large_file fuel' 1 g0 = Some r -> r = (ByBreak, st)).
Proof.
  split; [lia|]. split; [lia|].
  apply (C7_loop_terminates 1 g0 (Z.to_nat 1025)); lia.
Defined.

(** Every state the loop function passes through is a reachable state. *)
Lemma while_loop_reachable size chunk init : forall fuel st e st',
  reachable size chunk init false st ->
  while_loop fuel size chunk st = Some (e, st') ->
  exists broke, reachable size chunk init broke st'.
Proof.
  induction fuel as [|fuel IH]; intros st e st' Hreach Hrun; [discriminate|].
  simpl in Hrun.
  destruct (Z.ltb_spec (bytes_written st) size) as [Hlt|Hge].
  - destruct (loop_body size chunk st) as [st1 broke] eqn:Hbody.
    pose proof (reach_pass _ _ _ _ _ _ Hreach Hlt Hbody) as Hnext.
    destruct broke.
    + injection Hrun as _ <-. now exists true.
    + eapply IH; eassumption.
  - injection Hrun as _ <-. now exists false.
Qed.

(** With a target of [k] whole chunks every reachable state has written
    a whole number of chunks, at most [k], and the file holds exactly the
    bytes counted. *)
Lemma reachable_whole_chunks k chunk init :
  Z.of_nat (length (Py.encode_utf8 chunk)) = 1024 ->
  bytes_written init = 0 ->
  getsize (f init) = 0 ->
  forall broke st,
    reachable (1024 * k) chunk init broke st ->
    exists j, 0 <= j /\ (j <= k \/ j = 0)
              /\ bytes_written st = 1024 * j
              /\ getsize (f st) = bytes_written st.
Proof.
  intros Hc Hbw0 Hsz0 broke st Hreach.
  induction Hreach as [|st st' broke Hprev IH Hlt Hbody].
  - exists 0. repeat split; lia.
  - destruct IH as (j & Hj & Hjk & Hbw & Hsz).
    unfold loop_body in Hbody. rewrite Hc in Hbody. unfold chunk_size in Hbody.
    assert (Hsz1 : getsize (write (f st) chunk) = bytes_written st + 1024)
      by (rewrite getsize_write; lia).
    destruct (Z.gtb_spec (bytes_written st + 1024 + 1024) (1024 * k)) as [Hover|Hfit].
    + destruct (Z.gtb_spec (1024 * k - (bytes_written st + 1024)) 0) as [Hpos|Hnpos];
        [lia|].
      injection Hbody as <- <-. cbn [f bytes_written].
      exists (j + 1). repeat split; lia.
    + injection Hbody as <- <-. cbn [f bytes_written].
      exists (j + 1). repeat split; lia.
Qed.

(** C9.  For every nonnegative integer [size_in_mb], in every state of
    the loop (before the first pass, after each pass, after the pass that
    breaks) [bytes_written] is at most [size_in_bytes] and equals the
    number of bytes the file holds; whenever the guard lets a pass start,
    a full chunk of room remains.  The state a run returns is one of
    these states. *)
Theorem C9_never_overshoots (size_in_mb : Z) (g : Random.state)
        (broke : bool) (st : locals) :
  0 <= size_in_mb ->
  reachable (size_in_mb * 1024 * 1024) (chunk_of g) (init_of g) broke st ->
  bytes_written st <= size_in_mb * 1024 * 1024
  /\ getsize (f st) = bytes_written st
  /\ (bytes_written st < size_in_mb * 1024 * 1024 ->
      bytes_written st + chunk_size <= size_in_mb * 1024 * 1024)
  /\ (forall fuel e st',
        generate_large_file fuel size_in_mb g = Some (e, st') ->
        exists broke', reachable (size_in_mb * 1024 * 1024)
                                 (chunk_of g) (init_of g) broke' st').
Proof.
  intros Hmb Hreach.
  replace (size_in_mb * 1024 * 1024) with (1024 * (1024 * size_in_mb)) in * by lia.
  destruct (reachable_whole_chunks (1024 * size_in_mb) (chunk_of g) (init_of g)
              (chunk_encoded g) eq_refl eq_refl broke st Hreach)
    as (j & Hj & Hjk & Hbw & Hsz).
  unfold chunk_size. repeat split; try lia.
  intros fuel e st' Hrun.
  unfold generate_large_file in Hrun. rewrite generate_bytes_unfold in Hrun.
  replace (size_in_mb * 1024 * 1024) with (1024 * (1024 * size_in_mb)) in * by lia.
  eapply while_loop_reachable; [apply reach_init | eassumption].
Qed.

Lemma C9_never_overshoots_witness :
  0 <= 1 /\
  reachable (1 * 1024 * 1024) (chunk_of g0) (init_of g0) false
    (after_full (chunk_of g0) (init_of g0) 1) /\
  bytes_written (after_full (chunk_of g0) (init_of g0) 1) <= 1 * 1024 * 1024.
Proof.
  assert (Hreach : reachable (1 * 1024 * 1024) (chunk_of g0) (init_of g0) false
                     (after_full (chunk_of g0) (init_of g0) 1)).
  { eapply reach_pass; [apply reach_init | reflexivity |].
    unfold loop_body. rewrite chunk_encoded. reflexivity. }
  split; [lia|]. split; [exact Hreach|].
  exact (proj1 (C9_never_overshoots 1 g0 false _ ltac:(lia) Hreach)).
Defined.

Lemma closing_spec size st0 :
  bytes_written (closing size st0) = bytes_written st0
  /\ ((0 < size - bytes_written st0
       /\ exists last,
           f (closing size st0) = write (f st0) last
           /\ Z.of_nat (length last) = size - bytes_written st0
           /\ Forall (fun c => In c last_alphabet) last
           /\ forallb seven_bit last = true)
      \/ (size - bytes_written st0 <= 0 /\ closing size st0 = st0)).
Proof.
  unfold closing.
  destruct (Z.gtb_spec (size - bytes_written st0) 0) as [Hpos|Hnpos].
  - pose proof (choices_length " "%char last_alphabet
                  (Z.to_nat (size - bytes_written st0)) (rand st0)) as Hlen.
    pose proof (choices_in " "%char last_alphabet
                  (Z.to_nat (size - bytes_written st0)) (rand st0)) as Hin.
    pose proof (drawn_seven_bit last_alphabet
                  (Z.to_nat (size - bytes_written st0)) (rand st0)) as Hbit.
    destruct (Random.choices " "%char last_alphabet
                (Z.to_nat (size - bytes_written st0)) (rand st0))
      as [last_chunk g1].
    cbn [fst f bytes_written] in *.
    split; [reflexivity|]. left. split; [assumption|].
    exists last_chunk. repeat split.
    + lia.
    + apply Hin. discriminate.
    + apply Hbit; [discriminate | reflexivity].
  - split; [reflexivity|]. right. now split.
Qed.


Lemma encode_seven_bit_map s :
  forallb seven_bit s = true -> Py.encode_utf8 s = map byte_of_ascii s.
Proof.
  induction s as [|c s IH]; simpl; [reflexivity|].
  intros H. apply andb_prop in H as [Hc Hs].
  unfold Py.utf8_char. unfold seven_bit in Hc. rewrite Hc. simpl.
  f_equal. now apply IH.
Qed.

(** The full chunk can hold a line feed. *)
Example chunk_may_hold_newline :
  In Py.LF (chunk_of (Random.mkState (fun _ => 63%nat) 0)).
Proof. vm_compute. left. reflexivity. Qed.

End TextClaims.

(** ** generate_large_csv.py *)

Section CsvFacts.
Import TextIO Csv CsvGen CsvSpec.

Lemma choices_eq {A} (d : A) population len : forall g,
  Random.choices d population len g
  = (picks d population g 0 len, advance g len).
Proof.
  induction len as [|len IH]; intros g.
  - destruct g. reflexivity.
  - cbn [Random.choices]. unfold Random.bind at 1.
    unfold Random.choice, Random.bind at 1, Random.randbelow, Random.ret at 1.
    unfold Random.bind. rewrite IH. unfold Random.ret.
    unfold picks, pick, draw, advance. cbn [Random.tape Random.pos].
    f_equal.
    + cbn [seq map]. f_equal.
      rewrite <- seq_shift, map_map. apply map_ext. intros i.
      now rewrite Nat.add_0_l, Nat.add_succ_r.
    + f_equal. lia.
Qed.

Lemma make_row_eq i g : make_row i g = (row_at i g, advance g 32).
Proof. destruct g. reflexivity. Qed.

Lemma draw_lt g k n : n <> 0%nat -> (draw g k n < n)%nat.
Proof. intros Hn. unfold draw. now apply Nat.mod_upper_bound. Qed.

Lemma pick_in {A} (d : A) population g k :
  population <> [] -> In (pick d population g k) population.
Proof.
  intros Hne. unfold pick. apply nth_In. apply draw_lt.
  destruct population; [congruence | discriminate].
Qed.

Lemma picks_length {A} (d : A) population g k len :
  length (picks d population g k len) = len.
Proof. unfold picks. now rewrite length_map, length_seq. Qed.

Lemma picks_in {A} (d : A) population g k len :
  population <> [] ->
  Forall (fun x => In x population) (picks d population g k len).
Proof.
  intros Hne. unfold picks. apply Forall_forall. intros x Hx.
  apply in_map_iff in Hx as (i & <- & _). now apply pick_in.
Qed.

Lemma int_at_range g k a b : a <= b -> a <= int_at g k a b <= b.
Proof.
  intros Hab. unfold int_at.
  pose proof (draw_lt g k (Z.to_nat (b - a + 1))). lia.
Qed.

(** *** Fields that need no quoting *)

Lemma plain_app s t : plain (s ++ t) = plain s && plain t.
Proof. apply forallb_app. Qed.

Lemma good_app_l s t : good s = true -> plain t = true -> good (s ++ t) = true.
Proof.
  destruct s as [|c s]; [discriminate|]. intros Hs Ht.
  change (plain ((c :: s) ++ t) = true). rewrite plain_app.
  change (plain (c :: s) = true) in Hs. now rewrite Hs, Ht.
Qed.

Lemma good_plain s : good s = true -> plain s = true.
Proof. destruct s; [discriminate | trivial]. Qed.

Lemma plain_member (pool : Py.str) s :
  plain pool = true -> Forall (fun c => In c pool) s -> plain s = true.
Proof.
  intros Hpool Hs. apply forallb_forall. intros c Hc.
  rewrite Forall_forall in Hs. unfold plain in Hpool.
  rewrite forallb_forall in Hpool. auto.
Qed.

Lemma good_member (pool : list Py.str) s :
  forallb good pool = true -> In s pool -> good s = true.
Proof. intros Hpool Hs. rewrite forallb_forall in Hpool. auto. Qed.

Lemma uint_text_plain d :
  plain (list_ascii_of_string (NilEmpty.string_of_uint d)) = true.
Proof. induction d; simpl; trivial. Qed.

Lemma str_of_int_good i : good (Py.str_of_int i) = true.
Proof.
  unfold Py.str_of_int, Py.lit.
  destruct (Z.to_int i) as [d|d]; simpl.
  - destruct d; simpl; trivial; apply uint_text_plain.
  - destruct d; simpl; trivial; apply uint_text_plain.
Qed.

Lemma int_of_str_of_int i : Py.int_of_str (Py.str_of_int i) = Some i.
Proof.
  unfold Py.int_of_str, Py.str_of_int, Py.lit.
  rewrite string_of_list_ascii_of_string.
  rewrite NilZero.isi.
  - simpl. now rewrite DecimalZ.of_to.
  - destruct i; simpl; try discriminate.
    intros H. injection H as H.
    now apply (DecimalPos.Unsigned.to_uint_nonnil p).
  - destruct i; simpl; try discriminate.
    intros H. injection H as H.
    now apply (DecimalPos.Unsigned.to_uint_nonnil p).
Qed.

Lemma special_to_upper c : special c = false -> special (Py.to_upper c) = false.
Proof.
  destruct c as [[] [] [] [] [] [] [] []]; intros H;
    first [reflexivity | discriminate H].
Qed.

Lemma special_to_lower c : special c = false -> special (Py.to_lower c) = false.
Proof.
  destruct c as [[] [] [] [] [] [] [] []]; intros H;
    first [reflexivity | discriminate H].
Qed.

Lemma title_from_length s : forall b, length (Py.title_from b s) = length s.
Proof. induction s as [|c s IH]; intros b; simpl; [reflexivity | now rewrite IH]. Qed.

Lemma title_from_plain s : forall b,
  plain s = true -> plain (Py.title_from b s) = true.
Proof.
  induction s as [|c s IH]; intros b H; [reflexivity|].
  simpl in *. apply andb_prop in H as [Hc Hs].
  apply negb_true_iff in Hc. rewrite (IH _ Hs), andb_true_r.
  apply negb_true_iff.
  destruct b; [now apply special_to_lower | now apply special_to_upper].
Qed.

Lemma good_of_length s n :
  length s = S n -> plain s = true -> good s = true.
Proof. destruct s; [discriminate | trivial]. Qed.

Lemma alnum_plain : plain alnum = true.
Proof. reflexivity. Qed.

Lemma picks_alnum_plain g k len : plain (picks " "%char alnum g k len) = true.
Proof.
  apply (plain_member alnum); [apply alnum_plain|].
  apply picks_in. discriminate.
Qed.

Lemma name_good g : good (name_at g) = true.
Proof.
  unfold name_at. apply good_app_l.
  - apply (good_of_length _ 5).
    + unfold Py.title, first_at. now rewrite title_from_length, picks_length.
    + apply title_from_plain, picks_alnum_plain.
  - rewrite plain_app. apply andb_true_intro. split; [reflexivity|].
    apply title_from_plain, picks_alnum_plain.
Qed.

Lemma email_good g : good (email_at g) = true.
Proof.
  unfold email_at. apply good_app_l.
  - apply (good_of_length _ 7); [apply picks_length | apply picks_alnum_plain].
  - rewrite plain_app. apply andb_true_intro. split; [reflexivity|].
    apply good_plain. apply (good_member domains); [reflexivity|].
    apply pick_in. discriminate.
Qed.

Lemma phone_good g : good (phone_at g) = true.
Proof.
  unfold phone_at. apply good_app_l; [reflexivity|].
  repeat (rewrite plain_app; apply andb_true_intro; split);
    try reflexivity; apply good_plain, str_of_int_good.
Qed.

Lemma line_at_good i g : forallb good (line_at i g) = true.
Proof.
  unfold line_at. cbn [forallb].
  rewrite !str_of_int_good, name_good, email_good, phone_good.
  unfold city_at, country_at, department_at, active_at.
  rewrite (good_member cities), (good_member countries),
    (good_member departments), (good_member actives);
    try reflexivity; apply pick_in; discriminate.
Qed.

(** *** Writing a line and reading it back *)

Lemma quote_field_plain s : plain s = true -> quote_field s = s.
Proof.
  intros H. unfold quote_field.
  replace (existsb special s) with false; [reflexivity|].
  symmetry. apply not_true_is_false. intros He.
  apply existsb_exists in He as (c & Hc & Hsp).
  unfold plain in H. rewrite forallb_forall in H.
  specialize (H c Hc). now rewrite Hsp in H.
Qed.

Lemma format_row_good fs :
  forallb good fs = true ->
  format_row fs = join [delimiter] fs ++ lineterminator.
Proof.
  intros H.
  assert (Hmap : map quote_field fs = fs).
  { rewrite <- (map_id fs) at 2. apply map_ext_in. intros s Hs.
    apply quote_field_plain, good_plain.
    rewrite forallb_forall in H. auto. }
  unfold format_row. rewrite Hmap.
  destruct fs as [|[|c s] [|t fs]]; try reflexivity.
  discriminate H.
Qed.

Lemma step_plain r c :
  special c = false -> field_start r -> step r c = add_char r c InField.
Proof.
  unfold special. intros Hc Hm.
  apply orb_false_elim in Hc as [Hc Hlf].
  apply orb_false_elim in Hc as [Hc Hcr].
  apply orb_false_elim in Hc as [Hd Hq].
  unfold step, step_start_record, step_unquoted.
  destruct Hm as [-> | [-> | ->]]; now rewrite ?Hcr, ?Hlf, ?Hq, ?Hd.
Qed.

Lemma feed_good s : forall r,
  good s = true -> field_start r ->
  fold_left step s r
  = mkReader (records r) (fields r) (field r ++ s) InField.
Proof.
  destruct s as [|c s]; [discriminate|].
  revert c. induction s as [|c' s IH]; intros c r Hgood Hm.
  - simpl in *. rewrite andb_true_r in Hgood. apply negb_true_iff in Hgood.
    now rewrite step_plain.
  - change (good (c :: c' :: s)) with (negb (special c) && good (c' :: s)) in Hgood.
    apply andb_prop in Hgood as [Hc Hs]. apply negb_true_iff in Hc.
    cbn [fold_left]. rewrite (step_plain r c Hc Hm).
    change (fold_left step s (step (add_char r c InField) c'))
      with (fold_left step (c' :: s) (add_char r c InField)).
    rewrite IH; [|assumption | right; right; reflexivity].
    unfold add_char. cbn [records fields field].
    now rewrite <- app_assoc.
Qed.

Lemma step_delimiter r :
  rmode r = InField -> step r delimiter = end_field r.
Proof. intros Hm. unfold step. now rewrite Hm. Qed.

Lemma step_cr_lf r rest :
  rmode r = InField ->
  fold_left step (lineterminator ++ rest) r
  = fold_left step rest (mkReader (records r ++ [fields r ++ [field r]]) [] [] StartRecord).
Proof.
  intros Hm. unfold lineterminator.
  change ([Py.CR; Py.LF] ++ rest) with (Py.CR :: Py.LF :: rest).
  change (fold_left step (Py.CR :: Py.LF :: rest) r)
    with (fold_left step rest (step (step r Py.CR) Py.LF)).
  assert (H1 : step r Py.CR = end_record r AfterCR)
    by (unfold step; now rewrite Hm).
  rewrite H1. reflexivity.
Qed.

(** The fields of one written line, read from the start of a field. *)
Lemma feed_line fs : forall r rest,
  fs <> [] ->
  forallb good fs = true ->
  rmode r = StartRecord \/ rmode r = StartField ->
  field r = [] ->
  fold_left step (join [delimiter] fs ++ lineterminator ++ rest) r
  = fold_left step rest
      (mkReader (records r ++ [fields r ++ fs]) [] [] StartRecord).
Proof.
  induction fs as [|x fs IH]; intros r rest Hne Hgood Hm Hf; [congruence|].
  cbn [forallb] in Hgood. apply andb_prop in Hgood as [Hx Hfs].
  assert (Hstart : field_start r) by (unfold field_start; tauto).
  destruct fs as [|y fs].
  - cbn [join]. rewrite fold_left_app, (feed_good x r Hx Hstart).
    rewrite step_cr_lf by reflexivity.
    cbn [records fields field]. now rewrite Hf.
  - change (join [delimiter] (x :: y :: fs))
      with (x ++ [delimiter] ++ join [delimiter] (y :: fs)).
    rewrite <- !app_assoc.
    rewrite fold_left_app, (feed_good x r Hx Hstart).
    change (fold_left step ([delimiter] ++ join [delimiter] (y :: fs)
                              ++ lineterminator ++ rest))
      with (fun r' => fold_left step (join [delimiter] (y :: fs)
                                        ++ lineterminator ++ rest)
                                (step r' delimiter)).
    cbv beta. rewrite step_delimiter by reflexivity.
    rewrite IH; try assumption; try discriminate;
      [|right; reflexivity | reflexivity].
    unfold end_field. cbn [records fields field].
    now rewrite Hf, <- app_assoc.
Qed.

Lemma read_lines ls : forall acc,
  Forall (fun fs => fs <> [] /\ forallb good fs = true) ls ->
  fold_left step (concat (map format_row ls)) (mkReader acc [] [] StartRecord)
  = mkReader (acc ++ ls) [] [] StartRecord.
Proof.
  induction ls as [|fs ls IH]; intros acc Hall.
  - simpl. now rewrite app_nil_r.
  - inversion Hall as [|? ? [Hne Hgood] Hrest]; subst.
    cbn [map concat]. rewrite (format_row_good fs Hgood), <- app_assoc.
    rewrite feed_line; try assumption; [|left; reflexivity | reflexivity].
    cbn [records fields app]. rewrite IH by assumption.
    now rewrite <- app_assoc.
Qed.

Lemma read_written ls :
  Forall (fun fs => fs <> [] /\ forallb good fs = true) ls ->
  read (concat (map format_row ls)) = ls.
Proof. intros H. unfold read. now rewrite read_lines. Qed.

(** *** The loop and the whole script *)

Lemma writerow_row_at w i g :
  Csv.fieldnames w = CsvGen.fieldnames ->
  writerow w (row_at i g)
  = Some (mkDictWriter (write (csvfile w) (format_row (line_at i g)))
                       CsvGen.fieldnames).
Proof. destruct w as [fl names]. cbn [Csv.fieldnames]. intros ->. reflexivity. Qed.

Lemma for_rows_eq ids : forall w g,
  Csv.fieldnames w = CsvGen.fieldnames ->
  for_rows ids w g
  = (Some (mkDictWriter
             (mkFile (newline (csvfile w))
                     (writes (csvfile w) ++ map format_row (lines_at ids g)))
             CsvGen.fieldnames),
     advance g (32 * length ids)).
Proof.
  induction ids as [|i ids IH]; intros w g Hw.
  - destruct w as [[m ws] names], g. cbn in *. subst names.
    now rewrite app_nil_r.
  - cbn [for_rows]. unfold Random.bind. rewrite make_row_eq.
    rewrite (writerow_row_at w i g Hw). rewrite IH by reflexivity.
    unfold write, advance. cbn [csvfile newline writes lines_at map length
                                  Random.tape Random.pos].
    rewrite <- app_assoc. f_equal. f_equal. lia.
Qed.

Lemma main_eq g : fst (main g) = Some (written_file g).
Proof.
unfold main, Random.bind. rewrite for_rows_eq by reflexivity.
reflexivity.
Qed.

End CsvFacts.

(** ** generate_large_csv.py: properties *)

Section CsvClaims.
Import TextIO Csv CsvGen CsvSpec.

Lemma lines_at_length ids : forall g, length (lines_at ids g) = length ids.
Proof. induction ids as [|i ids IH]; intros g; simpl; [reflexivity | now rewrite IH]. Qed.

Lemma lines_at_forall (P : list Py.str -> Prop) ids :
  (forall i g, P (line_at i g)) ->
  forall g, Forall P (lines_at ids g).
Proof.
  intros HP. induction ids as [|i ids IH]; intros g; simpl; constructor; auto.
Qed.

Lemma lines_at_ids ids : forall g,
  map (fun r => nth 0 r []) (lines_at ids g) = map Py.str_of_int ids.
Proof.
  induction ids as [|i ids IH]; intros g; simpl; [reflexivity | now rewrite IH].
Qed.

Lemma range_length a b : Z.of_nat (length (Py.range a b)) = Z.max 0 (b - a).
Proof. unfold Py.range. rewrite length_map, length_seq. lia. Qed.

Lemma written_file_text g :
  text (written_file g)
  = concat (map format_row (CsvGen.fieldnames :: lines_at (Py.range 1 10001) g)).
Proof. now rewrite text_concat. Qed.

Lemma written_lines_good g :
  Forall (fun fs => forallb good fs = true)
         (CsvGen.fieldnames :: lines_at (Py.range 1 10001) g).
Proof.
constructor; [reflexivity|].
apply lines_at_forall. intros; apply line_at_good.
Qed.

(** What a reader gets from the file [main] leaves. *)
Lemma written_file_read g :
  read (text (written_file g))
  = CsvGen.fieldnames :: lines_at (Py.range 1 10001) g.
Proof.
rewrite written_file_text. apply read_written. constructor.
- split; [discriminate | reflexivity].
- apply lines_at_forall. intros i g'. split; [discriminate|].
  apply line_at_good.
Qed.

Lemma main_read g :
  exists fl,
    fst (main g) = Some fl
    /\ read (text fl) = CsvGen.fieldnames :: lines_at (Py.range 1 10001) g.
Proof.
exists (written_file g). split; [apply main_eq | apply written_file_read].
Qed.

Lemma plain_no_lf s : plain s = true -> count_occ ascii_dec s Py.LF = 0%nat.
Proof.
intros H. apply count_occ_not_In. intros Hin.
unfold plain in H. rewrite forallb_forall in H.
specialize (H _ Hin). discriminate H.
Qed.

Lemma join_no_lf fs :
  forallb good fs = true ->
  count_occ ascii_dec (join [delimiter] fs) Py.LF = 0%nat.
Proof.
induction fs as [|x fs IH]; intros H; [reflexivity|].
cbn [forallb] in H. apply andb_prop in H as [Hx Hfs].
destruct fs as [|y fs].
- cbn [join]. now apply plain_no_lf, good_plain.
- change (join [delimiter] (x :: y :: fs))
    with (x ++ [delimiter] ++ join [delimiter] (y :: fs)).
  rewrite !count_occ_app, (IH Hfs), (plain_no_lf x (good_plain x Hx)).
  reflexivity.
Qed.

(** Every written line holds exactly one line feed, its last character. *)
Lemma lines_lf_count ls :
  Forall (fun fs => forallb good fs = true) ls ->
  count_occ ascii_dec (concat (map format_row ls)) Py.LF = length ls.
Proof.
induction ls as [|fs ls IH]; intros H; [reflexivity|].
inversion H as [|? ? Hfs Hls]; subst.
cbn [map concat length]. rewrite count_occ_app, (IH Hls).
rewrite (format_row_good fs Hfs), count_occ_app, (join_no_lf fs Hfs).
reflexivity.
Qed.

(** C3.  The file [main] leaves has 10,001 lines, each ended by CR LF,
    and reads back as 10,001 records: the header with the ten field
    names, then 10,000 records of exactly ten fields each, whose first
    fields are the decimal numerals of 1, 2, ..., 10000 in this order. *)
Theorem C3_csv_shape (g : Random.state) :
  exists fl rows,
    fst (main g) = Some fl
    /\ Z.of_nat (count_occ ascii_dec (text fl) Py.LF) = 10000 + 1
    /\ read (text fl) = CsvGen.fieldnames :: rows
    /\ Z.of_nat (length (read (text fl))) = 10000 + 1
    /\ Z.of_nat (length rows) = 10000
    /\ Forall (fun r => length r = 10%nat) rows
    /\ map (fun r => nth 0 r []) rows = map Py.str_of_int (Py.range 1 10001)
    /\ map (fun r => Py.int_of_str (nth 0 r [])) rows
       = map Some (Py.range 1 (10000 + 1)).
Proof.
pose proof (written_file_read g) as Hread.
exists (written_file g), (lines_at (Py.range 1 10001) g).
assert (Hlen : Z.of_nat (length (lines_at (Py.range 1 10001) g)) = 10000)
  by (rewrite lines_at_length, range_length; lia).
split; [apply main_eq|]. split; [|split; [exact Hread|]].
{ rewrite written_file_text, lines_lf_count by apply written_lines_good.
  rewrite length_cons. lia. }
split; [|split; [exact Hlen|split; [|split]]].
- rewrite Hread, length_cons. lia.
- apply lines_at_forall. reflexivity.
- apply lines_at_ids.
- rewrite <- (map_map (fun r => nth 0 r []) Py.int_of_str), lines_at_ids.
  rewrite map_map. apply map_ext. intros i. apply int_of_str_of_int.
Qed.

Lemma title_from_nth s : forall b k c,
  nth_error s k = Some c ->
  nth_error (Py.title_from b s) k
  = Some (match k with
          | O => if b then Py.to_lower c else Py.to_upper c
          | S k' => title_char (nth_error s k') c
          end).
Proof.
  induction s as [|a s IH]; intros b k c Hk; [destruct k; discriminate|].
  destruct k as [|k]; simpl in *.
  - now injection Hk as ->.
  - rewrite (IH _ _ _ Hk). destruct k; reflexivity.
Qed.

Lemma title_nth s k c :
  nth_error s k = Some c ->
  nth_error (Py.title s) k
  = Some (title_char (match k with O => None | S k' => nth_error s k' end) c).
Proof.
  intros Hk. unfold Py.title. rewrite (title_from_nth _ _ _ _ Hk).
  destruct k; reflexivity.
Qed.

Lemma title_char_digit previous c : is_digit c = true -> title_char previous c = c.
Proof.
  destruct c as [[] [] [] [] [] [] [] []]; intros H; try discriminate H;
    unfold title_char; destruct previous as [p|];
      try destruct (Py.is_cased p); reflexivity.
Qed.

Lemma to_lower_not_upper c : Py.is_upper (Py.to_lower c) = false.
Proof. destruct c as [[] [] [] [] [] [] [] []]; reflexivity. Qed.

(** C5, as the code has it.  The name of every record is made of two
    random alphanumeric strings of lengths 6 and 8, drawn one after the
    other from separate cells of the tape, each passed through
    [str.title()] and joined by a space.  In the titled string the first
    character is upper-cased; a character after a letter is lower-cased;
    a character after a digit is upper-cased again; digits stay as they
    are. *)
Theorem C5_name_titled (i : Z) (g : Random.state) :
  get (fst (make_row i g)) (Py.lit "name") (VStr [])
  = VStr (Py.title (first_at g) ++ Py.lit " " ++ Py.title (second_at g))
  /\ length (first_at g) = 6%nat
  /\ length (second_at g) = 8%nat
  /\ Forall (fun c => In c (Py.ascii_letters ++ Py.digits)) (first_at g)
  /\ Forall (fun c => In c (Py.ascii_letters ++ Py.digits)) (second_at g)
  /\ first_at g
     = map (fun k => nth (Random.tape g (k + Random.pos g) mod 62)
                         (Py.ascii_letters ++ Py.digits) " "%char)
           (seq 0 6)
  /\ second_at g
     = map (fun k => nth (Random.tape g (6 + k + Random.pos g) mod 62)
                         (Py.ascii_letters ++ Py.digits) " "%char)
           (seq 0 8)
  /\ (forall s k c,
        nth_error s k = Some c ->
        nth_error (Py.title s) k
        = Some (title_char (match k with O => None | S k' => nth_error s k' end) c))
  /\ (forall previous c, is_digit c = true -> title_char previous c = c).
Proof.
  rewrite make_row_eq.
  split; [reflexivity|].
  split; [apply picks_length|].
  split; [apply picks_length|].
  split; [apply picks_in; discriminate|].
  split; [apply picks_in; discriminate|].
  split; [reflexivity|].
  split; [reflexivity|].
  split; [apply title_nth | apply title_char_digit].
Qed.

Lemma C5_name_titled_witness :
  nth_error (Py.lit "a1b") 2 = Some "b"%char
  /\ nth_error (Py.title (Py.lit "a1b")) 2
     = Some (title_char (nth_error (Py.lit "a1b") 1) "b"%char).
Proof.
  split; [reflexivity|].
  exact (proj1 (proj2 (proj2 (proj2 (proj2 (proj2 (proj2 (proj2
           (C5_name_titled 1 g0))))))))
           (Py.lit "a1b") 2%nat "b"%char eq_refl).
Defined.

(** C5 as the specification words it fails: the name of the record drawn from
    the tape [g0] is not of the form where each of the two words has its
    first character upper-cased and all the others lower-cased. *)
Lemma C5_not_capitalized :
  ~ (exists s1 s2,
        length s1 = 6%nat /\ length s2 = 8%nat
        /\ get (fst (make_row 1 g0)) (Py.lit "name") (VStr [])
           = VStr (capitalize s1 ++ Py.lit " " ++ capitalize s2)).
Proof.
  intros (s1 & s2 & H1 & H2 & Hname).
  destruct s1 as [|a1 [|a2 [|a3 [|a4 [|a5 [|a6 [|a7 s1]]]]]]]; try discriminate H1.
  destruct s2 as [|b1 [|b2 [|b3 [|b4 [|b5 [|b6 [|b7 [|b8 [|b9 s2]]]]]]]]];
    try discriminate H2.
  rewrite make_row_eq in Hname.
  assert (Hn : get (row_at 1 g0) (Py.lit "name") (VStr [])
               = VStr (Py.lit "Dkryfm T07Elszg")) by (vm_compute; reflexivity).
  cbn [fst] in Hname. rewrite Hn in Hname.
  apply (f_equal (fun v => match v with
                           | VStr l => Py.is_upper (nth 10 l " "%char)
                           | VInt _ => false
                           end)) in Hname.
  change (true = Py.is_upper (Py.to_lower b4)) in Hname.
  rewrite to_lower_not_upper in Hname. discriminate Hname.
Qed.

Lemma active_at_cases g :
  active_at g = Py.lit "true" \/ active_at g = Py.lit "false".
Proof.
  unfold active_at.
  pose proof (pick_in [] actives g 31 ltac:(discriminate)) as Hin.
  destruct Hin as [<- | [<- | []]]; [left | right]; reflexivity.
Qed.

Lemma line_at_ranges i g : ranges_ok (line_at i g).
Proof.
  exists (age_at g), (salary_at g). cbn [line_at nth].
  split; [reflexivity|]. split; [apply int_at_range; lia|].
  split; [reflexivity|]. split; [apply int_at_range; lia|].
  apply active_at_cases.
Qed.

(** C6.  In the dictionary of every record [age] is an integer between
    22 and 65, [salary] an integer between 30000 and 150000, and [active]
    the string true or the string false; and in every record read back
    from the file the fifth and ninth fields are the decimal numerals of
    such integers and the tenth is one of the two strings. *)
Theorem C6_field_ranges (i : Z) (g : Random.state) :
  (exists age salary active,
      get (fst (make_row i g)) (Py.lit "age") (VStr []) = VInt age
      /\ 22 <= age <= 65
      /\ get (fst (make_row i g)) (Py.lit "salary") (VStr []) = VInt salary
      /\ 30000 <= salary <= 150000
      /\ get (fst (make_row i g)) (Py.lit "active") (VStr []) = VStr active
      /\ (active = Py.lit "true" \/ active = Py.lit "false"))
  /\ (exists fl rows,
        fst (main g) = Some fl
        /\ read (text fl) = CsvGen.fieldnames :: rows
        /\ Forall ranges_ok rows).
Proof.
  split.
  - rewrite make_row_eq.
    exists (age_at g), (salary_at g), (active_at g).
    split; [reflexivity|]. split; [apply int_at_range; lia|].
    split; [reflexivity|]. split; [apply int_at_range; lia|].
    split; [reflexivity | apply active_at_cases].
  - destruct (main_read g) as (fl & Hmain & Hread).
    exists fl, (lines_at (Py.range 1 10001) g).
    split; [exact Hmain|]. split; [exact Hread|].
    apply lines_at_forall. intros; apply line_at_ranges.
Qed.

Lemma lines_at_widths ids : forall g,
  map (@length Py.str) (lines_at ids g) = map (fun _ => 10%nat) ids.
Proof.
  induction ids as [|i ids IH]; intros g; simpl; [reflexivity | now rewrite IH].
Qed.

End CsvClaims.

(** ** generate_large_json.py: properties *)

Section JsonClaims.
Import TextIO Json JsonGen.

Lemma range_nth a b (k : nat) :
  (k < Z.to_nat (b - a))%nat ->
  nth_error (Py.range a b) k = Some (a + Z.of_nat k).
Proof.
  intros Hk. unfold Py.range.
  rewrite nth_error_map, nth_error_seq.
  destruct (Nat.ltb_spec k (Z.to_nat (b - a))); [reflexivity | lia].
Qed.

Lemma data_nth i :
  0 <= i < 1000 -> nth_error data (Z.to_nat i) = Some (entry i).
Proof.
  intros Hi. unfold data. rewrite nth_error_map, range_nth by lia.
  cbn [option_map]. do 2 f_equal. lia.
Qed.

Lemma main_parses : loads (text main) = Some (List data).
Proof. vm_compute. reflexivity. Qed.

(** C4.  The text the script writes parses as an array, the array is
    [data] and has exactly 1000 elements, and for every index [i] from 0
    to 999 the element at index [i] is the object whose [method] is GET,
    whose [requestURI] is /bulk/ followed by the numeral of [i], whose
    [headers] is the object with the single key X bound to the numeral of
    [i], and whose [content] is the numeral of [i]. *)
Theorem C4_json_entries (i : Z) :
  0 <= i < 1000 ->
  loads (text main) = Some (List data)
  /\ Z.of_nat (length data) = 1000
  /\ nth_error data (Z.to_nat i)
     = Some (Dict [(Py.lit "method", Str (Py.lit "GET"));
                   (Py.lit "requestURI", Str (Py.lit "/bulk/" ++ Py.str_of_int i));
                   (Py.lit "headers", Dict [(Py.lit "X", Str (Py.str_of_int i))]);
                   (Py.lit "content", Str (Py.str_of_int i))]).
Proof.
  intros Hi. split; [apply main_parses|]. split.
  - unfold data. rewrite length_map.
    pose proof (range_length 0 1000). lia.
  - rewrite (data_nth i Hi). reflexivity.
Qed.

Lemma C4_json_entries_witness :
  0 <= 7 < 1000
  /\ nth_error data (Z.to_nat 7)
     = Some (Dict [(Py.lit "method", Str (Py.lit "GET"));
                   (Py.lit "requestURI", Str (Py.lit "/bulk/" ++ Py.str_of_int 7));
                   (Py.lit "headers", Dict [(Py.lit "X", Str (Py.str_of_int 7))]);
                   (Py.lit "content", Str (Py.str_of_int 7))]).
Proof.
  split; [lia|].
  exact (proj2 (proj2 (C4_json_entries 7 ltac:(lia)))).
Defined.

End JsonClaims.

(** ** Two runs of the same generator *)

Section TwoRuns.
Import TextIO.

(** C8.  Take two runs with any two generator states.  The text files
    have the same number of bytes (and received the same number of
    writes, leaving the loop the same way); the CSV files read back with
    the same number of lines, the same number of fields on each line,
    the same header and the same [id] column; the JSON script draws
    nothing, so its array, of 1000 elements, is the same in every run. *)
Theorem C8_shape_independent (ga gb : Random.state) (size_in_mb : Z) (fuel : nat) :
  0 <= size_in_mb ->
  (Z.to_nat (1024 * size_in_mb) < fuel)%nat ->
  (exists e st1 st2,
      TextGen.generate_large_file fuel size_in_mb ga = Some (e, st1)
      /\ TextGen.generate_large_file fuel size_in_mb gb = Some (e, st2)
      /\ getsize (TextGen.f st1) = getsize (TextGen.f st2)
      /\ length (writes (TextGen.f st1)) = length (writes (TextGen.f st2)))
  /\ (exists fl1 fl2,
        fst (CsvGen.main ga) = Some fl1
        /\ fst (CsvGen.main gb) = Some fl2
        /\ length (Csv.read (text fl1)) = length (Csv.read (text fl2))
        /\ map (@length Py.str) (Csv.read (text fl1))
           = map (@length Py.str) (Csv.read (text fl2))
        /\ hd [] (Csv.read (text fl1)) = hd [] (Csv.read (text fl2))
        /\ map (fun r => nth 0 r []) (Csv.read (text fl1))
           = map (fun r => nth 0 r []) (Csv.read (text fl2)))
  /\ (Json.loads (text JsonGen.main) = Some (Json.List JsonGen.data)
      /\ Z.of_nat (length JsonGen.data) = 1000).
Proof.
  intros Hmb Hfuel. split; [|split].
  - destruct (text_run_exit size_in_mb ga fuel Hmb Hfuel) as (st1 & Hrun1 & Hlen1).
    destruct (text_run_exit size_in_mb gb fuel Hmb Hfuel) as (st2 & Hrun2 & Hlen2).
    exists (if size_in_mb =? 0 then TextGen.ByGuard else TextGen.ByBreak), st1, st2.
    split; [exact Hrun1|]. split; [exact Hrun2|]. split; [|congruence].
    destruct (text_run_size size_in_mb ga fuel Hmb Hfuel) as (e1 & st1' & Hr1 & Hs1).
    destruct (text_run_size size_in_mb gb fuel Hmb Hfuel) as (e2 & st2' & Hr2 & Hs2).
    rewrite Hrun1 in Hr1. rewrite Hrun2 in Hr2.
    injection Hr1 as _ <-. injection Hr2 as _ <-. congruence.
  - destruct (main_read ga) as (fl1 & Hmain1 & Hread1).
    destruct (main_read gb) as (fl2 & Hmain2 & Hread2).
    exists fl1, fl2. rewrite Hread1, Hread2.
    split; [exact Hmain1|]. split; [exact Hmain2|].
    cbn [length map hd]. rewrite !lines_at_length, !lines_at_widths, !lines_at_ids.
    repeat split.
  - split; [apply main_parses|].
    unfold JsonGen.data. rewrite length_map.
    pose proof (range_length 0 1000). lia.
Qed.

Lemma C8_shape_independent_witness :
  0 <= 1 /\ (Z.to_nat (1024 * 1) < Z.to_nat 1025)%nat /\
  exists e st1 st2,
    TextGen.generate_large_file (Z.to_nat 1025) 1 g0 = Some (e, st1)
    /\ TextGen.generate_large_file (Z.to_nat 1025) 1 g1 = Some (e, st2)
    /\ getsize (TextGen.f st1) = getsize (TextGen.f st2)
    /\ length (writes (TextGen.f st1)) = length (writes (TextGen.f st2)).
Proof.
  split; [lia|]. split; [lia|].
  exact (proj1 (C8_shape_independent g0 g1 1 (Z.to_nat 1025)
                  ltac:(lia) ltac:(lia))).
Defined.

End TwoRuns.

(** * Further properties of the scripts *)

(** ** scripts/generate_large_file.py *)

Section TextMore.
Import TextIO TextGen TextSpec.

(** Every run that returns ends in one of two shapes. *)
Lemma generate_bytes_final size g fuel e st :
  generate_bytes fuel size g = Some (e, st) ->
  (size <= 0 /\ e = ByGuard /\ st = init_of g)
  \/ (0 < size /\ e = ByBreak
      /\ st = closing size
                (after_full (chunk_of g) (init_of g)
                   (Z.to_nat (Z.max 1 (size / 1024))))).
Proof.
intros Hrun. rewrite generate_bytes_unfold in Hrun.
destruct (Z.le_gt_cases size 0) as [Hle|Hgt].
- left. pose proof (generate_bytes_nonpositive size g 0 Hle) as Hrun0.
  rewrite generate_bytes_unfold in Hrun0.
  pose proof (while_loop_deterministic _ _ _ _ _ _ _ Hrun Hrun0) as Heq.
  injection Heq as -> ->. auto.
- right. pose proof (generate_bytes_positive size g _ Hgt (le_n _)) as Hrun0.
  rewrite generate_bytes_unfold in Hrun0.
  pose proof (while_loop_deterministic _ _ _ _ _ _ _ Hrun Hrun0) as Heq.
  injection Heq as -> ->. auto.
Qed.

Lemma chunk_draws g :
  snd (random_text_chunk g)
  = Random.mkState (Random.tape g) (1024 + Random.pos g).
Proof.
unfold random_text_chunk. rewrite choices_eq. cbn [snd].
unfold CsvSpec.advance. f_equal.
Qed.

Lemma text_after_full g n :
  text (f (after_full (chunk_of g) (init_of g) n))
  = concat (repeat (chunk_of g) n).
Proof. rewrite text_concat. reflexivity. Qed.

Lemma getsize_after_full g n :
  getsize (f (after_full (chunk_of g) (init_of g) n)) = 1024 * Z.of_nat n.
Proof.
unfold after_full. cbn [f]. unfold init_of. cbn [f writes newline open_w app].
apply getsize_repeat, chunk_encoded.
Qed.

(** X1.  With a target of zero or a negative number of megabytes the
    loop is never entered: the file is created and left empty, although
    the 1024 characters of the chunk were drawn before the loop. *)
Theorem nonpositive_target_empty_file (size_in_mb : Z) (g : Random.state) (fuel : nat) :
  size_in_mb <= 0 ->
  exists st,
    generate_large_file (S fuel) size_in_mb g = Some (ByGuard, st)
    /\ writes (f st) = []
    /\ on_disk (f st) = []
    /\ bytes_written st = 0
    /\ rand st = Random.mkState (Random.tape g) (1024 + Random.pos g).
Proof.
intros Hmb. exists (init_of g). split.
- unfold generate_large_file. apply generate_bytes_nonpositive. lia.
- unfold init_of. cbn [f bytes_written rand].
  split; [reflexivity|]. split; [reflexivity|]. split; [reflexivity|].
  apply chunk_draws.
Qed.

Lemma nonpositive_target_empty_file_witness :
  -3 <= 0 /\
  exists st,
    generate_large_file 1 (-3) g0 = Some (ByGuard, st)
    /\ writes (f st) = []
    /\ on_disk (f st) = []
    /\ bytes_written st = 0
    /\ rand st = Random.mkState (Random.tape g0) (1024 + Random.pos g0).
Proof.
split; [lia|].
exact (nonpositive_target_empty_file (-3) g0 0 ltac:(lia)).
Defined.

Lemma nth_concat_repeat {A} (c : list A) (d : A) n : forall k,
  (k < n * length c)%nat ->
  nth k (concat (repeat c n)) d = nth (k mod length c) c d.
Proof.
induction n as [|n IH]; intros k Hk; [lia|].
cbn [repeat concat].
destruct (Nat.lt_ge_cases k (length c)) as [Hlt|Hge].
- rewrite app_nth1 by assumption. now rewrite Nat.mod_small.
- rewrite app_nth2 by assumption. rewrite IH by lia.
  replace k with ((k - length c) + 1 * length c)%nat at 2 by lia.
  now rewrite Nat.Div0.mod_add.
Qed.

(** X2.  For a target of one megabyte or more the file is the one
    1024-character chunk written over and over: the character at any
    offset is the character of the chunk at that offset modulo 1024. *)
Theorem file_repeats_chunk (size_in_mb : Z) (g : Random.state) (fuel : nat) :
  1 <= size_in_mb ->
  (Z.to_nat (1024 * size_in_mb) <= fuel)%nat ->
  exists st,
    generate_large_file fuel size_in_mb g = Some (ByBreak, st)
    /\ text (f st) = concat (repeat (chunk_of g) (Z.to_nat (1024 * size_in_mb)))
    /\ forall k : nat,
         Z.of_nat k < size_in_mb * 1024 * 1024 ->
         nth k (text (f st)) " "%char = nth (k mod 1024) (chunk_of g) " "%char.
Proof.
intros Hmb Hfuel. exists (whole_chunks_final (1024 * size_in_mb) g).
split; [now apply generate_large_file_positive|].
assert (Htext : text (f (whole_chunks_final (1024 * size_in_mb) g))
                = concat (repeat (chunk_of g) (Z.to_nat (1024 * size_in_mb))))
  by (rewrite text_concat; reflexivity).
split; [exact Htext|].
intros k Hk. rewrite Htext, nth_concat_repeat.
- now rewrite chunk_length.
- rewrite chunk_length. lia.
Qed.

Lemma file_repeats_chunk_witness :
  1 <= 1 /\ (Z.to_nat (1024 * 1) <= Z.to_nat 1024)%nat /\
  exists st,
    generate_large_file (Z.to_nat 1024) 1 g0 = Some (ByBreak, st)
    /\ text (f st) = concat (repeat (chunk_of g0) (Z.to_nat (1024 * 1)))
    /\ forall k : nat,
         Z.of_nat k < 1 * 1024 * 1024 ->
         nth k (text (f st)) " "%char = nth (k mod 1024) (chunk_of g0) " "%char.
Proof.
split; [lia|]. split; [lia|].
exact (file_repeats_chunk 1 g0 (Z.to_nat 1024) ltac:(lia) ltac:(lia)).
Defined.

Lemma last_in_chunk_alphabet c : In c last_alphabet -> In c chunk_alphabet.
Proof.
unfold last_alphabet, chunk_alphabet. intros H.
apply in_app_or in H as [H|H]; apply in_or_app; [now left|right].
apply in_app_or in H as [H|H]; apply in_or_app; [now left|right].
destruct H as [<-|[]]. now left.
Qed.

Lemma Forall_concat_repeat {A} (P : A -> Prop) c n :
  Forall P c -> Forall P (concat (repeat c n)).
Proof.
intros Hc. induction n as [|n IH]; [constructor|].
cbn [repeat concat]. apply Forall_app. now split.
Qed.

Lemma chunk_in_alphabet g : Forall (fun c => In c chunk_alphabet) (chunk_of g).
Proof. unfold chunk_of, random_text_chunk. apply choices_in. discriminate. Qed.

(** The text of the file at the end of a run: the chunk some number of
    times, then possibly one last chunk over the smaller alphabet. *)
Lemma final_text size g fuel e st :
  generate_bytes fuel size g = Some (e, st) ->
  exists n last,
    text (f st) = concat (repeat (chunk_of g) n) ++ last
    /\ Forall (fun c => In c last_alphabet) last.
Proof.
intros Hrun.
destruct (generate_bytes_final size g fuel e st Hrun)
  as [(_ & _ & ->)|(_ & _ & ->)].
- exists 0%nat, []. split; [|constructor].
  rewrite text_concat. reflexivity.
- destruct (closing_spec size
              (after_full (chunk_of g) (init_of g)
                 (Z.to_nat (Z.max 1 (size / 1024)))))
    as (_ & [(_ & last & Hf & _ & Hal & _)|(_ & ->)]).
  + exists (Z.to_nat (Z.max 1 (size / 1024))), last. split; [|exact Hal].
    rewrite text_concat, Hf. unfold write. cbn [writes].
    rewrite concat_app. cbn [concat]. rewrite app_nil_r.
    now rewrite <- text_concat, text_after_full.
  + exists (Z.to_nat (Z.max 1 (size / 1024))), []. split; [|constructor].
    now rewrite app_nil_r, text_after_full.
Qed.

(** X3.  Whatever the target, the file holds only letters, digits, spaces
    and line feeds: every character is encoded as the one byte of its
    code, and no carriage return is ever written. *)
Theorem file_alphabet (size : Z) (g : Random.state) (fuel : nat)
        (e : exit) (st : locals) :
  generate_bytes fuel size g = Some (e, st) ->
  Forall (fun c => In c chunk_alphabet) (text (f st))
  /\ on_disk (f st) = map byte_of_ascii (text (f st))
  /\ ~ In Py.CR (text (f st)).
Proof.
intros Hrun.
assert (Hall : Forall (fun c => In c chunk_alphabet) (text (f st))).
{ destruct (final_text size g fuel e st Hrun) as (n & last & -> & Hlast).
  apply Forall_app. split.
  - apply Forall_concat_repeat, chunk_in_alphabet.
  - eapply Forall_impl; [|exact Hlast]. apply last_in_chunk_alphabet. }
split; [exact Hall|]. rewrite Forall_forall in Hall. split.
- unfold on_disk. apply encode_seven_bit_map.
  apply forallb_forall. intros c Hc. specialize (Hall c Hc).
  assert (Hal : forallb seven_bit chunk_alphabet = true) by reflexivity.
  rewrite forallb_forall in Hal. auto.
- intros Hin. specialize (Hall _ Hin).
  assert (Hb : existsb (Ascii.eqb Py.CR) chunk_alphabet = true)
    by (apply existsb_exists; exists Py.CR; split;
        [assumption | apply Ascii.eqb_refl]).
  discriminate Hb.
Qed.

Lemma file_alphabet_witness :
  exists st,
    generate_bytes 2 1500 g0 = Some (ByBreak, st)
    /\ Forall (fun c => In c chunk_alphabet) (text (f st))
    /\ on_disk (f st) = map byte_of_ascii (text (f st))
    /\ ~ In Py.CR (text (f st)).
Proof.
assert (Hrun : generate_bytes 2 1500 g0
               = Some (ByBreak,
                       closing 1500 (after_full (chunk_of g0) (init_of g0) 1)))
  by (apply generate_bytes_positive; [lia | vm_compute; lia]).
eexists. split; [exact Hrun|].
exact (file_alphabet 1500 g0 2 ByBreak _ Hrun).
Defined.

(** X4.  A positive byte target below one chunk is overshot: the loop
    writes the full chunk once, finds a negative remainder, writes
    nothing more and breaks, leaving 1024 bytes. *)
Theorem small_target_overshoots (size : Z) (g : Random.state) (fuel : nat) :
  0 < size < 1024 ->
  exists st,
    generate_bytes (S fuel) size g = Some (ByBreak, st)
    /\ writes (f st) = [chunk_of g]
    /\ bytes_written st = 1024
    /\ getsize (f st) = 1024
    /\ size < getsize (f st).
Proof.
intros Hsize.
assert (Hone : Z.to_nat (Z.max 1 (size / 1024)) = 1%nat) by div_lia.
pose proof (generate_bytes_positive size g (S fuel)) as Hrun.
rewrite Hone in Hrun. specialize (Hrun ltac:(lia) ltac:(lia)).
destruct (closing_spec size (after_full (chunk_of g) (init_of g) 1))
  as (_ & [(Hpos & _)|(_ & Hsame)]).
- cbn [after_full init_of bytes_written] in Hpos. lia.
- rewrite Hsame in Hrun.
  exists (after_full (chunk_of g) (init_of g) 1).
  split; [exact Hrun|]. split; [reflexivity|]. split; [reflexivity|].
  rewrite getsize_after_full. lia.
Qed.

Lemma small_target_overshoots_witness :
  0 < 500 < 1024 /\
  exists st,
    generate_bytes 1 500 g0 = Some (ByBreak, st)
    /\ writes (f st) = [chunk_of g0]
    /\ bytes_written st = 1024
    /\ getsize (f st) = 1024
    /\ 500 < getsize (f st).
Proof.
split; [lia|].
exact (small_target_overshoots 500 g0 0 ltac:(lia)).
Defined.

End TextMore.

(** ** scripts/generate_large_file.py on an [int] or a [float] *)

Section TextNumFacts.
Import TextIO TextGen TextSpec.






(** *** Comparing an integer with a float *)

Lemma le_floor m q : Qle_bool (inject_Z m) q = (m <=? Qfloor q).
Proof.
apply eq_true_iff_eq. rewrite Qle_bool_iff, Z.leb_le. split; intros H.
- apply Qfloor_resp_le in H. now rewrite Qfloor_Z in H.
- apply Qle_trans with (inject_Z (Qfloor q)); [|apply Qfloor_le].
  now rewrite <- Zle_Qle.
Qed.

Lemma gt_int_floor m q :
  TextGenNum.gt_int m (TextGenNum.PyFloat q) = (Qfloor q <? m).
Proof. cbn [TextGenNum.gt_int]. now rewrite le_floor, Z.ltb_antisym. Qed.

Lemma lt_int_spec m q :
  TextGenNum.lt_int m (TextGenNum.PyFloat q) = true <-> (inject_Z m < q)%Q.
Proof.
cbn [TextGenNum.lt_int]. rewrite negb_true_iff. split; intros H.
- apply Qnot_le_lt. intros Hle. apply Qle_bool_iff in Hle. congruence.
- apply not_true_is_false. intros Hle. apply Qle_bool_iff in Hle.
  exact (Qlt_not_le _ _ H Hle).
Qed.

Lemma lt_int_below m m' q :
  m < m' -> m' <= Qfloor q -> TextGenNum.lt_int m (TextGenNum.PyFloat q) = true.
Proof.
intros Hlt Hle. apply lt_int_spec.
apply Qlt_le_trans with (inject_Z m'); [now rewrite <- Zlt_Qlt|].
apply Qle_trans with (inject_Z (Qfloor q)); [now rewrite <- Zle_Qle | apply Qfloor_le].
Qed.

Lemma positive_sub q m :
  TextGenNum.positive (TextGenNum.sub_int (TextGenNum.PyFloat q) m)
  = TextGenNum.lt_int m (TextGenNum.PyFloat q).
Proof.
cbn [TextGenNum.positive TextGenNum.sub_int TextGenNum.lt_int]. f_equal.
apply eq_true_iff_eq. rewrite !Qle_bool_iff.
rewrite (Qle_minus_iff q), (Qle_minus_iff (q - inject_Z m)).
assert (E : (inject_Z 0 + - (q - inject_Z m) == inject_Z m + - q)%Q) by ring.
now rewrite E.
Qed.

(** From a state that has made [j] full passes the loop on a positive
    float target makes the passes the integer part of the target allows;
    the last of them raises if bytes remain and breaks if none does. *)
Lemma while_loop_float chunk q :
  Z.of_nat (length (Py.encode_utf8 chunk)) = 1024 ->
  (0 < q)%Q ->
  forall fuel st j (n : nat),
    bytes_written st = 1024 * j ->
    0 <= j ->
    (j = 0 \/ 1024 * (j + 1) <= Qfloor q) ->
    Z.of_nat n = Z.max 1 (Qfloor q / 1024) - j ->
    (n <= fuel)%nat ->
    TextGenNum.while_loop fuel (TextGenNum.PyFloat q) chunk st
    = Some (if TextGenNum.lt_int (1024 * Z.max 1 (Qfloor q / 1024))
                                 (TextGenNum.PyFloat q)
            then TextGenNum.Raised (after_full chunk st n)
            else TextGenNum.Returned ByBreak (after_full chunk st n)).
Proof.
intros Hc Hq.
induction fuel as [|fuel IH]; intros st j n Hbw Hj Hroom Hn Hfuel.
- exfalso. assert (n = 0%nat) by lia. subst n. div_lia.
- cbn [TextGenNum.while_loop].
  assert (Hguard : TextGenNum.lt_int (bytes_written st) (TextGenNum.PyFloat q) = true).
  { destruct Hroom as [Hz|Hroom].
    - apply lt_int_spec. rewrite Hbw, Hz. exact Hq.
    - apply (lt_int_below _ (1024 * (j + 1))); lia. }
  rewrite Hguard. unfold TextGenNum.loop_body. rewrite Hc. unfold chunk_size.
  rewrite gt_int_floor, positive_sub.
  destruct (Z.ltb_spec (Qfloor q) (bytes_written st + 1024 + 1024)) as [Hover|Hfit].
  + assert (Hn1 : n = 1%nat) by div_lia. subst n.
    assert (Hlast : bytes_written st + 1024 = 1024 * Z.max 1 (Qfloor q / 1024))
      by div_lia.
    rewrite Hlast.
    assert (Hst : after_full chunk st 1
                  = mkLocals (write (f st) chunk)
                             (1024 * Z.max 1 (Qfloor q / 1024)) (rand st)).
    { unfold after_full, write. cbn [repeat]. f_equal. lia. }
    rewrite Hst.
    destruct (TextGenNum.lt_int (1024 * Z.max 1 (Qfloor q / 1024))
                                (TextGenNum.PyFloat q)); reflexivity.
  + destruct n as [|n]; [div_lia|].
    rewrite (IH _ (j + 1) n); cbn [bytes_written]; try div_lia.
    now rewrite after_full_S.
Qed.

Lemma generate_bytes_num_unfold fuel size g :
  TextGenNum.generate_bytes fuel size g
  = TextGenNum.while_loop fuel size (chunk_of g) (init_of g).
Proof.
unfold TextGenNum.generate_bytes, chunk_of, init_of. cbv zeta. reflexivity.
Qed.

Lemma generate_bytes_float_positive q g fuel :
  (0 < q)%Q ->
  (Z.to_nat (Z.max 1 (Qfloor q / 1024)) <= fuel)%nat ->
  TextGenNum.generate_bytes fuel (TextGenNum.PyFloat q) g
  = Some (if TextGenNum.lt_int (1024 * Z.max 1 (Qfloor q / 1024))
                               (TextGenNum.PyFloat q)
          then TextGenNum.Raised
                 (after_full (chunk_of g) (init_of g)
                    (Z.to_nat (Z.max 1 (Qfloor q / 1024))))
          else TextGenNum.Returned ByBreak
                 (after_full (chunk_of g) (init_of g)
                    (Z.to_nat (Z.max 1 (Qfloor q / 1024))))).
Proof.
intros Hq Hfuel. rewrite generate_bytes_num_unfold.
apply (while_loop_float _ _ (chunk_encoded g) Hq fuel (init_of g) 0);
  cbn [init_of bytes_written]; try lia.
Qed.






(** X5.  A float byte target of at least 1024 and below 2^63: the chunk
    is written once for every whole 1024 in the target.  If the target is
    an exact multiple of 1024 the run returns and the file has exactly
    that many bytes; otherwise line 27 raises TypeError and the file is
    left short of the target, with the full chunks only. *)
Theorem float_target_exact_or_raises (q : Q) (g : Random.state) (fuel : nat) :
  TextGenNum.in_range (TextGenNum.PyFloat q) = true ->
  (inject_Z 1024 <= q)%Q ->
  (Z.to_nat (Qfloor q / 1024) <= fuel)%nat ->
  exists st,
    writes (f st) = repeat (chunk_of g) (Z.to_nat (Qfloor q / 1024))
    /\ bytes_written st = 1024 * (Qfloor q / 1024)
    /\ getsize (f st) = 1024 * (Qfloor q / 1024)
    /\ ((inject_Z (getsize (f st)) == q)%Q
        /\ TextGenNum.generate_bytes fuel (TextGenNum.PyFloat q) g
           = Some (TextGenNum.Returned ByBreak st)
        \/ (inject_Z (getsize (f st)) < q)%Q
           /\ TextGenNum.generate_bytes fuel (TextGenNum.PyFloat q) g
              = Some (TextGenNum.Raised st)).
Proof.
intros _ Hq Hfuel.
assert (Hfloor : 1024 <= Qfloor q)
  by (apply Qfloor_resp_le in Hq; now rewrite Qfloor_Z in Hq).
assert (Hmax : Z.max 1 (Qfloor q / 1024) = Qfloor q / 1024) by div_lia.
assert (Hpos : (0 < q)%Q)
  by (apply Qlt_le_trans with (inject_Z 1024); [reflexivity | exact Hq]).
pose proof (generate_bytes_float_positive q g fuel Hpos) as Hrun.
rewrite Hmax in Hrun. specialize (Hrun Hfuel).
set (n := Z.to_nat (Qfloor q / 1024)) in *.
assert (Hn : 1024 * Z.of_nat n = 1024 * (Qfloor q / 1024)) by (unfold n; div_lia).
exists (after_full (chunk_of g) (init_of g) n).
split; [reflexivity|].
split; [cbn [after_full init_of bytes_written]; lia|].
rewrite getsize_after_full, Hn. split; [reflexivity|].
destruct (TextGenNum.lt_int (1024 * (Qfloor q / 1024)) (TextGenNum.PyFloat q)) eqn:Hlt.
- right. split; [now apply lt_int_spec | exact Hrun].
- left. split; [|exact Hrun].
  apply Qle_antisym.
  + apply Qle_trans with (inject_Z (Qfloor q)); [|apply Qfloor_le].
    rewrite <- Zle_Qle. div_lia.
  + cbn [TextGenNum.lt_int] in Hlt. apply negb_false_iff in Hlt.
    now apply Qle_bool_iff.
Qed.

Lemma float_target_exact_or_raises_witness :
  TextGenNum.in_range (TextGenNum.PyFloat (1500 # 1)) = true /\
  (inject_Z 1024 <= 1500 # 1)%Q /\ (Z.to_nat (Qfloor (1500 # 1) / 1024) <= 1)%nat /\
  exists st,
    writes (f st) = repeat (chunk_of g0) (Z.to_nat (Qfloor (1500 # 1) / 1024))
    /\ bytes_written st = 1024 * (Qfloor (1500 # 1) / 1024)
    /\ getsize (f st) = 1024 * (Qfloor (1500 # 1) / 1024)
    /\ ((inject_Z (getsize (f st)) == 1500 # 1)%Q
        /\ TextGenNum.generate_bytes 1 (TextGenNum.PyFloat (1500 # 1)) g0
           = Some (TextGenNum.Returned ByBreak st)
        \/ (inject_Z (getsize (f st)) < 1500 # 1)%Q
           /\ TextGenNum.generate_bytes 1 (TextGenNum.PyFloat (1500 # 1)) g0
              = Some (TextGenNum.Raised st)).
Proof.
assert (H1 : (inject_Z 1024 <= 1500 # 1)%Q) by (vm_compute; discriminate).
assert (H2 : (Z.to_nat (Qfloor (1500 # 1) / 1024) <= 1)%nat) by (vm_compute; lia).
split; [reflexivity|]. split; [exact H1|]. split; [exact H2|].
exact (float_target_exact_or_raises (1500 # 1) g0 1 eq_refl H1 H2).
Defined.

End TextNumFacts.

(** ** generate_large_csv.py *)

Section CsvMore.
Import TextIO Csv CsvGen CsvSpec.

(** X6.  The dictionary built for a record has exactly the declared field
    names as its keys, in the declared order; so [writerow] never raises
    ValueError on it, no field falls back to the default value, and the
    line written holds the [str()] of the ten values in order. *)
Theorem row_keys_are_fieldnames (i : Z) (g : Random.state) (fl : file) :
  map fst (fst (make_row i g)) = CsvGen.fieldnames
  /\ dict_to_list (mkDictWriter fl CsvGen.fieldnames) (fst (make_row i g))
     = Some (map snd (fst (make_row i g)))
  /\ writerow (mkDictWriter fl CsvGen.fieldnames) (fst (make_row i g))
     = Some (mkDictWriter
               (write fl (format_row
                            (map field_text (map snd (fst (make_row i g))))))
               CsvGen.fieldnames).
Proof.
rewrite make_row_eq. cbn [fst].
split; [reflexivity|]. split; [reflexivity|].
now rewrite writerow_row_at.
Qed.

Lemma random_string_eq n g :
  random_string n g = (picks " "%char alnum g 0 n, advance g n).
Proof. unfold random_string. apply choices_eq. Qed.

Lemma random_email_eq g :
  random_email g
  = (picks " "%char alnum g 0 8 ++ Py.lit "@" ++ pick [] domains g 8,
     advance g 9).
Proof. destruct g. reflexivity. Qed.

Lemma random_phone_eq g :
  random_phone g
  = (Py.lit "+1-" ++ Py.str_of_int (int_at g 0 100 999) ++ Py.lit "-"
       ++ Py.str_of_int (int_at g 1 100 999) ++ Py.lit "-"
       ++ Py.str_of_int (int_at g 2 1000 9999),
     advance g 3).
Proof. destruct g. reflexivity. Qed.

Lemma alnum_not c x :
  existsb (Ascii.eqb x) alnum = false -> In c alnum -> c <> x.
Proof.
intros Hx Hc ->.
assert (Hb : existsb (Ascii.eqb x) alnum = true)
  by (apply existsb_exists; exists x; split; [assumption | apply Ascii.eqb_refl]).
congruence.
Qed.

Lemma count_absent (s : Py.str) x :
  existsb (Ascii.eqb x) alnum = false ->
  Forall (fun c => In c alnum) s ->
  count_occ ascii_dec s x = 0%nat.
Proof.
intros Hx Hs. apply count_occ_not_In. intros Hin.
rewrite Forall_forall in Hs.
exact (alnum_not x x Hx (Hs _ Hin) eq_refl).
Qed.

(** X7.  An e-mail address is eight alphanumeric characters, one at sign
    and one of the four domains: between 18 and 20 characters, with
    exactly one at sign, in ninth place; nine draws are consumed. *)
Theorem random_email_shape (g : Random.state) :
  exists local_part domain,
    fst (random_email g) = local_part ++ Py.lit "@" ++ domain
    /\ length local_part = 8%nat
    /\ Forall (fun c => In c (Py.ascii_letters ++ Py.digits)) local_part
    /\ In domain domains
    /\ count_occ ascii_dec (fst (random_email g)) "@"%char = 1%nat
    /\ (18 <= length (fst (random_email g)) <= 20)%nat
    /\ snd (random_email g)
       = Random.mkState (Random.tape g) (9 + Random.pos g).
Proof.
rewrite random_email_eq. cbn [fst snd].
exists (picks " "%char alnum g 0 8), (pick [] domains g 8).
assert (Hdom : In (pick [] domains g 8) domains) by (apply pick_in; discriminate).
assert (Hloc : Forall (fun c => In c alnum) (picks " "%char alnum g 0 8))
  by (apply picks_in; discriminate).
split; [reflexivity|]. split; [apply picks_length|].
split; [exact Hloc|]. split; [exact Hdom|]. split; [|split; [|reflexivity]].
- rewrite !count_occ_app, (count_absent _ "@"%char eq_refl Hloc).
  assert (Hd : forallb (fun d => count_occ ascii_dec d "@"%char =? 0)%nat domains
               = true) by reflexivity.
  rewrite forallb_forall in Hd. specialize (Hd _ Hdom).
  apply Nat.eqb_eq in Hd. now rewrite Hd.
- rewrite !length_app, picks_length.
  assert (Hd : forallb (fun d => (9 <=? length d) && (length d <=? 11))%nat domains
               = true) by reflexivity.
  rewrite forallb_forall in Hd. specialize (Hd _ Hdom).
  apply andb_prop in Hd as [Hlo Hhi].
  apply Nat.leb_le in Hlo, Hhi. cbn [Py.lit list_ascii_of_string length]. lia.
Qed.

Lemma in_range a b n : a <= n < b -> In n (Py.range a b).
Proof.
intros Hn. unfold Py.range. apply in_map_iff.
exists (Z.to_nat (n - a)). split; [lia|]. apply in_seq. lia.
Qed.

Lemma numeral_width a b w n :
  forallb (fun k => (length (Py.str_of_int k) =? w)%nat
                    && forallb is_digit (Py.str_of_int k)) (Py.range a b) = true ->
  a <= n < b ->
  length (Py.str_of_int n) = w /\ forallb is_digit (Py.str_of_int n) = true.
Proof.
intros Hall Hn. rewrite forallb_forall in Hall.
specialize (Hall n (in_range a b n Hn)).
apply andb_prop in Hall as [Hw Hd]. apply Nat.eqb_eq in Hw. now split.
Qed.

Lemma three_digits n :
  100 <= n <= 999 ->
  length (Py.str_of_int n) = 3%nat /\ forallb is_digit (Py.str_of_int n) = true.
Proof.
intros Hn. apply (numeral_width 100 1000); [vm_compute; reflexivity | lia].
Qed.

Lemma four_digits n :
  1000 <= n <= 9999 ->
  length (Py.str_of_int n) = 4%nat /\ forallb is_digit (Py.str_of_int n) = true.
Proof.
intros Hn. apply (numeral_width 1000 10000); [vm_compute; reflexivity | lia].
Qed.

(** X8.  A phone number is always 15 characters long: plus, one, and
    three groups of exactly 3, 3 and 4 decimal digits, each group the
    numeral of the integer drawn for it, separated by hyphens; three draws
    are consumed. *)
Theorem random_phone_shape (g : Random.state) :
  exists a b c,
    fst (random_phone g)
    = Py.lit "+1-" ++ Py.str_of_int a ++ Py.lit "-" ++ Py.str_of_int b
        ++ Py.lit "-" ++ Py.str_of_int c
    /\ 100 <= a <= 999 /\ 100 <= b <= 999 /\ 1000 <= c <= 9999
    /\ length (Py.str_of_int a) = 3%nat
    /\ length (Py.str_of_int b) = 3%nat
    /\ length (Py.str_of_int c) = 4%nat
    /\ forallb is_digit (Py.str_of_int a ++ Py.str_of_int b ++ Py.str_of_int c)
       = true
    /\ length (fst (random_phone g)) = 15%nat
    /\ snd (random_phone g)
       = Random.mkState (Random.tape g) (3 + Random.pos g).
Proof.
rewrite random_phone_eq. cbn [fst snd].
pose proof (int_at_range g 0 100 999 ltac:(lia)) as Ha.
pose proof (int_at_range g 1 100 999 ltac:(lia)) as Hb.
pose proof (int_at_range g 2 1000 9999 ltac:(lia)) as Hc.
destruct (three_digits _ Ha) as [Hla Hda].
destruct (three_digits _ Hb) as [Hlb Hdb].
destruct (four_digits _ Hc) as [Hlc Hdc].
exists (int_at g 0 100 999), (int_at g 1 100 999), (int_at g 2 1000 9999).
split; [reflexivity|].
split; [exact Ha|]. split; [exact Hb|]. split; [exact Hc|].
split; [exact Hla|]. split; [exact Hlb|]. split; [exact Hlc|].
split; [|split; [|reflexivity]].
- now rewrite !forallb_app, Hda, Hdb, Hdc.
- rewrite !length_app, Hla, Hlb, Hlc. reflexivity.
Qed.

Lemma to_upper_not_lower c : Py.is_lower (Py.to_upper c) = false.
Proof. destruct c as [[] [] [] [] [] [] [] []]; reflexivity. Qed.

Lemma alnum_closed c :
  In c alnum -> In (Py.to_upper c) alnum /\ In (Py.to_lower c) alnum.
Proof.
intros Hc.
assert (Hall : forallb (fun x => existsb (Ascii.eqb (Py.to_upper x)) alnum
                                 && existsb (Ascii.eqb (Py.to_lower x)) alnum)
                       alnum = true) by reflexivity.
rewrite forallb_forall in Hall. specialize (Hall c Hc).
apply andb_prop in Hall as [Hu Hl].
apply existsb_exists in Hu as (u & Hu & Heu).
apply existsb_exists in Hl as (l & Hl & Hel).
apply Ascii.eqb_eq in Heu, Hel. subst u l. now split.
Qed.

Lemma title_from_alnum s : forall b,
  Forall (fun c => In c alnum) s ->
  Forall (fun c => In c alnum) (Py.title_from b s).
Proof.
induction s as [|c s IH]; intros b Hs; [constructor|].
inversion Hs as [|? ? Hc Hrest]; subst. cbn [Py.title_from].
constructor; [|now apply IH].
destruct (alnum_closed c Hc). now destruct b.
Qed.

Lemma title_head s :
  s <> [] -> Py.is_lower (hd " "%char (Py.title s)) = false.
Proof.
destruct s as [|c s]; [congruence|]. intros _. apply to_upper_not_lower.
Qed.

(** X9.  The name of a record is always 15 characters: a word of six
    letters and digits, one space, a word of eight letters and digits.
    The space in seventh place is the only one, and neither word starts
    with a lower-case letter. *)
Theorem name_shape (i : Z) (g : Random.state) :
  exists word1 word2,
    get (fst (make_row i g)) (Py.lit "name") (VStr [])
    = VStr (word1 ++ Py.lit " " ++ word2)
    /\ length word1 = 6%nat /\ length word2 = 8%nat
    /\ Forall (fun c => In c (Py.ascii_letters ++ Py.digits)) word1
    /\ Forall (fun c => In c (Py.ascii_letters ++ Py.digits)) word2
    /\ Py.is_lower (hd " "%char word1) = false
    /\ Py.is_lower (hd " "%char word2) = false
    /\ length (word1 ++ Py.lit " " ++ word2) = 15%nat
    /\ count_occ ascii_dec (word1 ++ Py.lit " " ++ word2) " "%char = 1%nat.
Proof.
rewrite make_row_eq.
exists (Py.title (first_at g)), (Py.title (second_at g)).
assert (Hl1 : length (Py.title (first_at g)) = 6%nat)
  by (unfold Py.title, first_at; now rewrite title_from_length, picks_length).
assert (Hl2 : length (Py.title (second_at g)) = 8%nat)
  by (unfold Py.title, second_at; now rewrite title_from_length, picks_length).
assert (Ha1 : Forall (fun c => In c alnum) (Py.title (first_at g)))
  by (apply title_from_alnum, picks_in; discriminate).
assert (Ha2 : Forall (fun c => In c alnum) (Py.title (second_at g)))
  by (apply title_from_alnum, picks_in; discriminate).
split; [reflexivity|]. split; [exact Hl1|]. split; [exact Hl2|].
split; [exact Ha1|]. split; [exact Ha2|].
split; [|split; [|split]].
- apply title_head. intros H.
  pose proof (picks_length " "%char alnum g 0 6) as Hlen.
  unfold first_at in H. rewrite H in Hlen. discriminate Hlen.
- apply title_head. intros H.
  pose proof (picks_length " "%char alnum g 6 8) as Hlen.
  unfold second_at in H. rewrite H in Hlen. discriminate Hlen.
- rewrite !length_app, Hl1, Hl2. reflexivity.
- rewrite !count_occ_app.
  rewrite (count_absent _ " "%char eq_refl Ha1).
  rewrite (count_absent _ " "%char eq_refl Ha2). reflexivity.
Qed.

(** *** The loop over any list of identifiers *)

Lemma advance_advance g a b : advance (advance g a) b = advance g (b + a).
Proof. unfold advance. cbn [Random.tape Random.pos]. f_equal. lia. Qed.

Lemma lines_at_nth ids : forall g k i,
  nth_error ids k = Some i ->
  nth_error (lines_at ids g) k = Some (line_at i (advance g (32 * k))).
Proof.
induction ids as [|j ids IH]; intros g k i Hk; [destruct k; discriminate|].
destruct k as [|k].
- injection Hk as ->. cbn [lines_at nth_error].
  replace (advance g (32 * 0)) with g by (destruct g; reflexivity).
  reflexivity.
- cbn [lines_at nth_error] in *. rewrite (IH _ _ _ Hk).
  rewrite advance_advance.
  replace (32 * k + 32)%nat with (32 * S k)%nat by lia. reflexivity.
Qed.

(** X10.  The loop of [main], run over any list of identifiers after the
    header was written, never raises: it makes one write per identifier,
    consumes 32 draws per record, and the file reads back as the header
    followed by one record of ten fields per identifier, whose first
    fields are the numerals of the identifiers in order.  Over the empty
    list the file holds the header alone. *)
Theorem for_rows_any_ids (ids : list Z) (g : Random.state) :
  exists fl,
    for_rows ids (writeheader (mkDictWriter (open_w Untranslated) CsvGen.fieldnames)) g
    = (Some (mkDictWriter fl CsvGen.fieldnames),
       Random.mkState (Random.tape g) (32 * length ids + Random.pos g))
    /\ length (writes fl) = S (length ids)
    /\ read (text fl) = CsvGen.fieldnames :: lines_at ids g
    /\ length (lines_at ids g) = length ids
    /\ Forall (fun r => length r = 10%nat) (lines_at ids g)
    /\ map (fun r => nth 0 r []) (lines_at ids g) = map Py.str_of_int ids
    /\ (ids = [] -> read (text fl) = [CsvGen.fieldnames]).
Proof.
exists (mkFile Untranslated (map format_row (CsvGen.fieldnames :: lines_at ids g))).
assert (Hread : read (text (mkFile Untranslated
                   (map format_row (CsvGen.fieldnames :: lines_at ids g))))
                = CsvGen.fieldnames :: lines_at ids g).
{ rewrite text_concat. cbn [writes].
  apply read_written. constructor.
  - split; [discriminate | reflexivity].
  - apply lines_at_forall. intros i g'. split; [discriminate|].
    apply line_at_good. }
split; [rewrite for_rows_eq by reflexivity; reflexivity|].
split; [cbn [writes]; rewrite length_map, length_cons; now rewrite lines_at_length|].
split; [exact Hread|]. split; [apply lines_at_length|].
split; [apply lines_at_forall; reflexivity|].
split; [apply lines_at_ids|].
intros ->. exact Hread.
Qed.

Lemma for_rows_any_ids_witness :
  exists fl,
    for_rows [] (writeheader (mkDictWriter (open_w Untranslated) CsvGen.fieldnames)) g0
    = (Some (mkDictWriter fl CsvGen.fieldnames),
       Random.mkState (Random.tape g0) (32 * length (@nil Z) + Random.pos g0))
    /\ read (text fl) = [CsvGen.fieldnames].
Proof.
destruct (for_rows_any_ids [] g0) as (fl & Hrun & _ & _ & _ & _ & _ & Hempty).
exists fl. split; [exact Hrun | exact (Hempty eq_refl)].
Defined.

(** *** The file of [main] *)

Lemma plain_count s x :
  plain s = true -> special x = true -> count_occ ascii_dec s x = 0%nat.
Proof.
intros Hs Hx. apply count_occ_not_In. intros Hin.
unfold plain in Hs. rewrite forallb_forall in Hs.
specialize (Hs _ Hin). rewrite Hx in Hs. discriminate Hs.
Qed.

Lemma join_count_delimiter fs :
  forallb good fs = true ->
  count_occ ascii_dec (join [delimiter] fs) delimiter = (length fs - 1)%nat.
Proof.
induction fs as [|x fs IH]; intros H; [reflexivity|].
cbn [forallb] in H. apply andb_prop in H as [Hx Hfs].
pose proof (plain_count x delimiter (good_plain x Hx) eq_refl) as Hcx.
destruct fs as [|y fs].
- cbn [join length]. now rewrite Hcx.
- change (join [delimiter] (x :: y :: fs))
    with (x ++ [delimiter] ++ join [delimiter] (y :: fs)).
  rewrite !count_occ_app, (IH Hfs), Hcx. cbn [count_occ].
  destruct (ascii_dec delimiter delimiter); [|congruence].
  cbn [length]. lia.
Qed.

Lemma join_count_other fs x :
  forallb good fs = true ->
  special x = true -> x <> delimiter ->
  count_occ ascii_dec (join [delimiter] fs) x = 0%nat.
Proof.
intros H Hx Hne. induction fs as [|y fs IH]; [reflexivity|].
cbn [forallb] in H. apply andb_prop in H as [Hy Hfs].
pose proof (plain_count y x (good_plain y Hy) Hx) as Hcy.
destruct fs as [|z fs].
- cbn [join]. exact Hcy.
- change (join [delimiter] (y :: z :: fs))
    with (y ++ [delimiter] ++ join [delimiter] (z :: fs)).
  rewrite !count_occ_app, (IH Hfs), Hcy.
  cbn [count_occ]. destruct (ascii_dec delimiter x); [congruence | reflexivity].
Qed.

Lemma lines_count_delimiter ls :
  Forall (fun fs => forallb good fs = true /\ length fs = 10%nat) ls ->
  count_occ ascii_dec (concat (map format_row ls)) delimiter
  = (9 * length ls)%nat.
Proof.
induction ls as [|fs ls IH]; intros H; [reflexivity|].
inversion H as [|? ? [Hfs Hlen] Hls]; subst.
cbn [map concat length]. rewrite count_occ_app, (IH Hls).
rewrite (format_row_good fs Hfs), count_occ_app, (join_count_delimiter fs Hfs).
rewrite Hlen. cbn [lineterminator count_occ].
destruct (ascii_dec Py.CR delimiter); [discriminate|].
destruct (ascii_dec Py.LF delimiter); [discriminate|]. lia.
Qed.

Lemma lines_count_quote ls :
  Forall (fun fs => forallb good fs = true) ls ->
  count_occ ascii_dec (concat (map format_row ls)) quotechar = 0%nat.
Proof.
induction ls as [|fs ls IH]; intros H; [reflexivity|].
inversion H as [|? ? Hfs Hls]; subst.
cbn [map concat]. rewrite count_occ_app, (IH Hls).
rewrite (format_row_good fs Hfs), count_occ_app.
rewrite (join_count_other fs quotechar Hfs eq_refl) by discriminate.
reflexivity.
Qed.

(** X11.  Nothing [main] writes ever needs quoting: the file holds no
    quote character and exactly nine commas on each of its 10,001 lines,
    so cutting each line at its commas gives the ten fields. *)
Theorem main_never_quotes (g : Random.state) :
  exists fl,
    fst (main g) = Some fl
    /\ count_occ ascii_dec (text fl) quotechar = 0%nat
    /\ Z.of_nat (count_occ ascii_dec (text fl) delimiter) = 9 * 10001
    /\ writes fl
       = map (fun fs => join [delimiter] fs ++ lineterminator)
             (CsvGen.fieldnames :: lines_at (Py.range 1 10001) g).
Proof.
exists (written_file g). split; [apply main_eq|].
rewrite written_file_text. split; [|split].
- apply lines_count_quote, written_lines_good.
- rewrite lines_count_delimiter.
  + rewrite length_cons, lines_at_length.
    pose proof (range_length 1 10001). lia.
  + constructor; [split; reflexivity|].
    apply lines_at_forall. intros i g'. split; [apply line_at_good | reflexivity].
- unfold written_file. cbn [writes]. apply map_ext_in.
  intros fs Hfs. apply format_row_good.
  pose proof (written_lines_good g) as Hall. rewrite Forall_forall in Hall. auto.
Qed.

Lemma line_at_row i g :
  line_at i g = map field_text (map snd (fst (make_row i g))).
Proof. rewrite make_row_eq. reflexivity. Qed.

(** X12.  Write and read back: for every [k] below 10000 the record read
    at position [k + 1] of the file is the [str()] of the ten values of
    the dictionary [make_row] builds for identifier [k + 1] from the
    generator moved [32 * k] draws on; its identifier, age and salary
    fields parse back to the integers stored in the dictionary.  The
    whole run consumes 320,000 draws. *)
Theorem record_round_trip (g : Random.state) (k : nat) :
  Z.of_nat k < 10000 ->
  exists fl row record age salary,
    fst (main g) = Some fl
    /\ row = fst (make_row (1 + Z.of_nat k)
                           (Random.mkState (Random.tape g) (32 * k + Random.pos g)))
    /\ nth_error (read (text fl)) (S k) = Some record
    /\ record = map field_text (map snd row)
    /\ get row (Py.lit "id") (VStr []) = VInt (1 + Z.of_nat k)
    /\ Py.int_of_str (nth 0 record []) = Some (1 + Z.of_nat k)
    /\ get row (Py.lit "age") (VStr []) = VInt age
    /\ Py.int_of_str (nth 4 record []) = Some age
    /\ get row (Py.lit "salary") (VStr []) = VInt salary
    /\ Py.int_of_str (nth 8 record []) = Some salary
    /\ snd (main g)
       = Random.mkState (Random.tape g) (Z.to_nat 320000 + Random.pos g).
Proof.
intros Hk.
set (g' := Random.mkState (Random.tape g) (32 * k + Random.pos g)).
exists (written_file g), (fst (make_row (1 + Z.of_nat k) g')),
  (line_at (1 + Z.of_nat k) g'), (age_at g'), (salary_at g').
split; [apply main_eq|]. split; [reflexivity|]. split.
{ rewrite written_file_read. cbn [nth_error].
  rewrite (lines_at_nth _ g k (1 + Z.of_nat k)); [reflexivity|].
  apply range_nth. lia. }
split; [apply line_at_row|].
rewrite make_row_eq. cbn [fst line_at nth].
split; [reflexivity|]. split; [apply int_of_str_of_int|].
split; [reflexivity|]. split; [apply int_of_str_of_int|].
split; [reflexivity|]. split; [apply int_of_str_of_int|].
unfold main, Random.bind. rewrite for_rows_eq by reflexivity.
unfold Random.ret. cbn [snd]. unfold advance.
assert (Hlen : length (Py.range 1 10001) = Z.to_nat 10000)
  by (unfold Py.range; now rewrite length_map, length_seq).
replace (32 * length (Py.range 1 10001))%nat with (Z.to_nat 320000)
  by (rewrite Hlen; lia).
reflexivity.
Qed.

Lemma record_round_trip_witness :
  Z.of_nat 2 < 10000 /\
  exists fl row record age salary,
    fst (main g0) = Some fl
    /\ row = fst (make_row (1 + Z.of_nat 2)
                           (Random.mkState (Random.tape g0) (32 * 2 + Random.pos g0)))
    /\ nth_error (read (text fl)) 3 = Some record
    /\ record = map field_text (map snd row)
    /\ get row (Py.lit "id") (VStr []) = VInt (1 + Z.of_nat 2)
    /\ Py.int_of_str (nth 0 record []) = Some (1 + Z.of_nat 2)
    /\ get row (Py.lit "age") (VStr []) = VInt age
    /\ Py.int_of_str (nth 4 record []) = Some age
    /\ get row (Py.lit "salary") (VStr []) = VInt salary
    /\ Py.int_of_str (nth 8 record []) = Some salary
    /\ snd (main g0)
       = Random.mkState (Random.tape g0) (Z.to_nat 320000 + Random.pos g0).
Proof.
split; [lia|].
exact (record_round_trip g0 2 ltac:(lia)).
Defined.

(** X13.  In every record read back from the file the city, the country
    and the department are members of the three fixed lists, never the
    empty default. *)
Theorem records_use_pools (g : Random.state) :
  exists fl rows,
    fst (main g) = Some fl
    /\ read (text fl) = CsvGen.fieldnames :: rows
    /\ Forall (fun r => In (nth 5 r []) cities
                        /\ In (nth 6 r []) countries
                        /\ In (nth 7 r []) departments) rows.
Proof.
exists (written_file g), (lines_at (Py.range 1 10001) g).
split; [apply main_eq|]. split; [apply written_file_read|].
apply lines_at_forall. intros i g'. cbn [line_at nth].
unfold city_at, country_at, department_at.
repeat split; apply pick_in; discriminate.
Qed.

End CsvMore.

(** ** generate_large_json.py *)

Section JsonMore.
Import TextIO Json JsonGen JsonSpec.

Lemma str_of_int_injective i j : Py.str_of_int i = Py.str_of_int j -> i = j.
Proof.
intros H. apply (f_equal Py.int_of_str) in H.
rewrite !int_of_str_of_int in H. now injection H.
Qed.

Lemma lookup_requestURI i :
  lookup (Py.lit "requestURI") (entry i)
  = Some (Str (Py.lit "/bulk/" ++ Py.str_of_int i)).
Proof. reflexivity. Qed.

Lemma range_NoDup a b : NoDup (Py.range a b).
Proof.
unfold Py.range. apply Injective_map_NoDup; [|apply seq_NoDup].
intros x y H. lia.
Qed.

(** X14.  Distinct indices give distinct request URIs, so no two of the
    1000 entries of [data] are equal and no URI occurs twice. *)
Theorem entries_distinct :
  (forall i j,
      lookup (Py.lit "requestURI") (entry i) = lookup (Py.lit "requestURI") (entry j) ->
      i = j)
  /\ NoDup (map (lookup (Py.lit "requestURI")) data)
  /\ NoDup data.
Proof.
assert (Hinj : forall i j,
           lookup (Py.lit "requestURI") (entry i)
           = lookup (Py.lit "requestURI") (entry j) -> i = j).
{ intros i j H. rewrite !lookup_requestURI in H.
  injection H as H. now apply str_of_int_injective. }
split; [exact Hinj|]. split.
- unfold data. rewrite map_map.
  apply Injective_map_NoDup; [|apply range_NoDup].
  intros i j H. now apply Hinj.
- unfold data. apply Injective_map_NoDup; [|apply range_NoDup].
  intros i j H. apply Hinj. now rewrite H.
Qed.

Lemma entries_distinct_witness :
  lookup (Py.lit "requestURI") (entry 3) = lookup (Py.lit "requestURI") (entry 3)
  /\ 3 = 3.
Proof.
split; [reflexivity|].
exact (proj1 entries_distinct 3 3 eq_refl).
Defined.

(** *** Dump and load *)

Lemma value_induction (P : value -> Prop) :
  (forall s, P (Str s)) ->
  (forall items, Forall P items -> P (List items)) ->
  (forall items, Forall (fun kv => P (snd kv)) items -> P (Dict items)) ->
  forall v, P v.
Proof.
intros Hs Hl Hd. fix IH 1. intros [s|items|items].
- apply Hs.
- apply Hl. induction items as [|x items IHi]; constructor; [apply IH | exact IHi].
- apply Hd. induction items as [|[k x] items IHi]; constructor;
    [apply IH | exact IHi].
Qed.

Lemma escape_plain s : forallb json_plain s = true -> flat_map escape_char s = s.
Proof.
induction s as [|c s IH]; intros H; [reflexivity|].
cbn [forallb] in H. apply andb_prop in H as [Hc Hs].
cbn [flat_map]. rewrite (IH Hs).
destruct c as [[] [] [] [] [] [] [] []]; try discriminate Hc; reflexivity.
Qed.

Lemma encode_string_plain s :
  forallb json_plain s = true -> encode_string s = dquote :: s ++ [dquote].
Proof. intros H. unfold encode_string. now rewrite escape_plain. Qed.

Lemma parse_chars_step c s acc :
  json_plain c = true -> parse_chars (c :: s) acc = parse_chars s (acc ++ [c]).
Proof.
destruct c as [[] [] [] [] [] [] [] []]; intros H; try discriminate H; reflexivity.
Qed.

Lemma parse_chars_plain s : forall acc rest,
  forallb json_plain s = true ->
  parse_chars (s ++ dquote :: rest) acc = Some (acc ++ s, rest).
Proof.
induction s as [|c s IH]; intros acc rest H.
- cbn [app]. now rewrite app_nil_r.
- cbn [forallb] in H. apply andb_prop in H as [Hc Hs].
  change ((c :: s) ++ dquote :: rest) with (c :: (s ++ dquote :: rest)).
  rewrite (parse_chars_step c _ acc Hc), (IH _ rest Hs), <- app_assoc.
  reflexivity.
Qed.

Lemma skip_ws_head c t : is_ws c = false -> skip_ws (c :: t) = c :: t.
Proof. intros H. cbn [skip_ws]. now rewrite H. Qed.

Lemma skip_ws_spaces n t : skip_ws (repeat " "%char n ++ t) = skip_ws t.
Proof. induction n as [|n IH]; [reflexivity | exact IH]. Qed.

Lemma skip_ws_newline_indent indent level t :
  skip_ws (newline_indent indent level ++ t) = skip_ws t.
Proof. unfold newline_indent. apply (skip_ws_spaces (indent * level) t). Qed.

Lemma encode_starts indent level v :
  exists c t, encode indent level v = c :: t /\ opener c.
Proof.
unfold opener.
destruct v as [s|[|x items]|[|kv items]]; eexists; eexists;
  (split; [reflexivity|]); tauto.
Qed.

Lemma skip_ws_encode indent level v t :
  skip_ws (encode indent level v ++ t) = encode indent level v ++ t.
Proof.
destruct (encode_starts indent level v) as (c & u & He & Hc).
rewrite He. apply skip_ws_head. destruct Hc as [-> | [-> | ->]]; reflexivity.
Qed.

Lemma join_cons sep x l :
  Json.join sep (x :: l) = x ++ flat_map (fun y => sep ++ y) l.
Proof.
revert x. induction l as [|y l IH]; intros x.
- cbn. now rewrite app_nil_r.
- change (Json.join sep (x :: y :: l)) with (x ++ sep ++ Json.join sep (y :: l)).
  rewrite IH. cbn [flat_map]. now rewrite <- !app_assoc.
Qed.

Lemma head_dispatch {T} (l : Py.str) (x : ascii) (A : Py.str -> T) (B N : T) :
  (exists c t, l = c :: t /\ c <> x) ->
  match l with
  | d :: s2 => if Ascii.eqb d x then A s2 else B
  | [] => N
  end = B.
Proof.
intros (c & t & Hl & Hne). subst l.
destruct (Ascii.eqb_spec c x); [congruence | reflexivity].
Qed.

Lemma parse_items_unfold pv fuel s acc :
  parse_items pv (S fuel) s acc
  = match skip_ws s with
    | c :: s1 =>
        if Ascii.eqb c "]"%char then Some (acc, s1)
        else if Ascii.eqb c ","%char then
          match pv (skip_ws s1) with
          | Some (v, s2) => parse_items pv fuel s2 (acc ++ [v])
          | None => None
          end
        else None
    | [] => None
    end.
Proof. reflexivity. Qed.

Lemma parse_pairs_unfold pv fuel s acc :
  parse_pairs pv (S fuel) s acc
  = match skip_ws s with
    | c :: s1 =>
        if Ascii.eqb c "}"%char then Some (acc, s1)
        else if Ascii.eqb c ","%char then
          match parse_pair pv (skip_ws s1) with
          | Some (k, v, s2) => parse_pairs pv fuel s2 (acc ++ [(k, v)])
          | None => None
          end
        else None
    | [] => None
    end.
Proof. reflexivity. Qed.

(** The items after the first, up to the closing bracket. *)
Lemma parse_items_spec pv indent level rest : forall vs acc fuel,
  Forall (fun v => forall t, pv (encode indent (S level) v ++ t) = Some (v, t)) vs ->
  (length vs < fuel)%nat ->
  parse_items pv fuel
    (flat_map (fun y => (Py.lit "," ++ newline_indent indent (S level)) ++ y)
              (map (encode indent (S level)) vs)
       ++ newline_indent indent level ++ Py.lit "]" ++ rest) acc
  = Some (acc ++ vs, rest).
Proof.
induction vs as [|v vs IH]; intros acc fuel Hpv Hfuel;
  (destruct fuel as [|fuel]; [inversion Hfuel|]); rewrite parse_items_unfold.
- cbn [map flat_map]. rewrite app_nil_l, skip_ws_newline_indent.
  change (Py.lit "]" ++ rest) with ("]"%char :: rest).
  rewrite skip_ws_head by reflexivity.
  change (Ascii.eqb "]"%char "]"%char) with true. cbv iota.
  now rewrite app_nil_r.
- inversion Hpv as [|? ? Hv Hvs]; subst. cbn [length] in Hfuel.
  cbn [map flat_map]. rewrite <- !app_assoc.
  change (Py.lit "," ++ ?t) with (","%char :: t).
  rewrite skip_ws_head by reflexivity.
  change (Ascii.eqb ","%char "]"%char) with false.
  change (Ascii.eqb ","%char ","%char) with true. cbv iota.
  rewrite skip_ws_newline_indent, skip_ws_encode, Hv.
  rewrite IH by (assumption || lia).
  now rewrite <- app_assoc.
Qed.

Lemma parse_pair_quote pv s1 :
  parse_pair pv (dquote :: s1)
  = match parse_chars s1 [] with
    | Some (k, s2) =>
        match skip_ws s2 with
        | d :: s3 =>
            if Ascii.eqb d ":"%char then
              match pv (skip_ws s3) with
              | Some (v, s4) => Some (k, v, s4)
              | None => None
              end
            else None
        | [] => None
        end
    | None => None
    end.
Proof. reflexivity. Qed.

Lemma parse_pair_spec pv indent level k x t :
  forallb json_plain k = true ->
  (forall u, pv (encode indent (S level) x ++ u) = Some (x, u)) ->
  parse_pair pv (pair_text indent level (k, x) ++ t) = Some (k, x, t).
Proof.
intros Hk Hx. unfold pair_text. rewrite (encode_string_plain k Hk).
change ((dquote :: k ++ [dquote]) ++ Py.lit ": " ++ encode indent (S level) x)
  with (dquote :: ((k ++ [dquote]) ++ Py.lit ": " ++ encode indent (S level) x)).
change ((dquote :: ?a) ++ t) with (dquote :: (a ++ t)).
rewrite <- !app_assoc.
change ([dquote] ++ Py.lit ": " ++ ?a)
  with (dquote :: ":"%char :: " "%char :: a).
rewrite parse_pair_quote, parse_chars_plain by assumption.
rewrite app_nil_l, skip_ws_head by reflexivity.
change (Ascii.eqb ":"%char ":"%char) with true. cbv iota.
change (skip_ws (" "%char :: ?a)) with (skip_ws a).
now rewrite skip_ws_encode, Hx.
Qed.

Lemma parse_pairs_spec pv indent level rest : forall kvs acc fuel,
  Forall (fun kv => forallb json_plain (fst kv) = true
                    /\ forall t, pv (encode indent (S level) (snd kv) ++ t)
                                 = Some (snd kv, t)) kvs ->
  (length kvs < fuel)%nat ->
  parse_pairs pv fuel
    (flat_map (fun y => (Py.lit "," ++ newline_indent indent (S level)) ++ y)
              (map (pair_text indent level) kvs)
       ++ newline_indent indent level ++ Py.lit "}" ++ rest) acc
  = Some (acc ++ kvs, rest).
Proof.
induction kvs as [|[k x] kvs IH]; intros acc fuel Hpv Hfuel;
  (destruct fuel as [|fuel]; [inversion Hfuel|]); rewrite parse_pairs_unfold.
- cbn [map flat_map]. rewrite app_nil_l, skip_ws_newline_indent.
  change (Py.lit "}" ++ rest) with ("}"%char :: rest).
  rewrite skip_ws_head by reflexivity.
  change (Ascii.eqb "}"%char "}"%char) with true. cbv iota.
  now rewrite app_nil_r.
- inversion Hpv as [|? ? [Hk Hx] Hkvs]; subst. cbn [length] in Hfuel.
  cbn [fst snd] in Hk, Hx.
  cbn [map flat_map]. rewrite <- !app_assoc.
  change (Py.lit "," ++ ?t) with (","%char :: t).
  rewrite skip_ws_head by reflexivity.
  change (Ascii.eqb ","%char "}"%char) with false.
  change (Ascii.eqb ","%char ","%char) with true. cbv iota.
  rewrite skip_ws_newline_indent.
  assert (Hsk : forall u, skip_ws (pair_text indent level (k, x) ++ u)
                          = pair_text indent level (k, x) ++ u)
    by (intros u; apply skip_ws_head; reflexivity).
  rewrite Hsk, (parse_pair_spec pv indent level k x _ Hk Hx).
  rewrite IH by (assumption || lia).
  now rewrite <- app_assoc.
Qed.

Lemma parse_value_str fuel s1 :
  parse_value (S fuel) (dquote :: s1)
  = match parse_chars s1 [] with
    | Some (x, s2) => Some (Str x, s2)
    | None => None
    end.
Proof. reflexivity. Qed.

Lemma parse_value_list fuel s1 :
  parse_value (S fuel) ("["%char :: s1)
  = match skip_ws s1 with
    | d :: s2 =>
        if Ascii.eqb d "]"%char then Some (List [], s2)
        else
          match parse_value fuel (skip_ws s1) with
          | Some (v, s3) =>
              match parse_items (parse_value fuel) (length ("["%char :: s1)) s3 [v] with
              | Some (items, s4) => Some (List items, s4)
              | None => None
              end
          | None => None
          end
    | [] => None
    end.
Proof. reflexivity. Qed.

Lemma parse_value_dict fuel s1 :
  parse_value (S fuel) ("{"%char :: s1)
  = match skip_ws s1 with
    | d :: s2 =>
        if Ascii.eqb d "}"%char then Some (Dict [], s2)
        else
          match parse_pair (parse_value fuel) (skip_ws s1) with
          | Some (k, v, s3) =>
              match parse_pairs (parse_value fuel) (length ("{"%char :: s1)) s3 [(k, v)] with
              | Some (items, s4) => Some (Dict items, s4)
              | None => None
              end
          | None => None
          end
    | [] => None
    end.
Proof. reflexivity. Qed.

Lemma encode_list_cons indent level v vs :
  encode indent level (List (v :: vs))
  = "["%char
      :: newline_indent indent (S level)
      ++ (encode indent (S level) v
            ++ flat_map (fun y => (Py.lit "," ++ newline_indent indent (S level)) ++ y)
                        (map (encode indent (S level)) vs))
      ++ newline_indent indent level ++ Py.lit "]".
Proof.
change (encode indent level (List (v :: vs)))
  with (Py.lit "[" ++ newline_indent indent (S level)
          ++ Json.join (Py.lit "," ++ newline_indent indent (S level))
                       (map (encode indent (S level)) (v :: vs))
          ++ newline_indent indent level ++ Py.lit "]").
cbn [map]. now rewrite join_cons.
Qed.

Lemma encode_dict_cons indent level kv kvs :
  encode indent level (Dict (kv :: kvs))
  = "{"%char
      :: newline_indent indent (S level)
      ++ (pair_text indent level kv
            ++ flat_map (fun y => (Py.lit "," ++ newline_indent indent (S level)) ++ y)
                        (map (pair_text indent level) kvs))
      ++ newline_indent indent level ++ Py.lit "}".
Proof.
change (encode indent level (Dict (kv :: kvs)))
  with (Py.lit "{" ++ newline_indent indent (S level)
          ++ Json.join (Py.lit "," ++ newline_indent indent (S level))
                       (map (pair_text indent level) (kv :: kvs))
          ++ newline_indent indent level ++ Py.lit "}").
cbn [map]. now rewrite join_cons.
Qed.

Lemma flat_map_length_ge {A} (g : A -> Py.str) (l : list A) :
  (forall y, 1 <= length (g y))%nat -> (length l <= length (flat_map g l))%nat.
Proof.
intros Hg. induction l as [|y l IH]; [reflexivity|].
cbn [flat_map length]. rewrite length_app. specialize (Hg y). lia.
Qed.

Lemma depth_list_bound items fuel :
  (depth (List items) <= S fuel)%nat ->
  Forall (fun x => (depth x <= fuel)%nat) items.
Proof.
cbn [depth]. intros H. apply le_S_n in H.
induction items as [|x items IH]; constructor; cbn [fold_right] in H.
- lia.
- apply IH. lia.
Qed.

Lemma depth_dict_bound items fuel :
  (depth (Dict items) <= S fuel)%nat ->
  Forall (fun kv => (depth (snd kv) <= fuel)%nat) items.
Proof.
cbn [depth]. intros H. apply le_S_n in H.
induction items as [|[k x] items IH]; constructor; cbn [fold_right snd] in *.
- lia.
- apply IH. lia.
Qed.

Lemma opener_not c x :
  opener c -> x <> dquote -> x <> "["%char -> x <> "{"%char -> c <> x.
Proof. intros [-> | [-> | ->]] H1 H2 H3; congruence. Qed.

(** Parsing what [encode] printed gives the value back, whatever follows
    it, as soon as the fuel covers the nesting depth. *)
Lemma encode_parse : forall v,
  plain_value v = true ->
  forall indent fuel level rest,
    (depth v <= fuel)%nat ->
    parse_value fuel (encode indent level v ++ rest) = Some (v, rest).
Proof.
induction v as [s|items IH|items IH] using value_induction;
  intros Hplain indent fuel level rest Hfuel;
  (destruct fuel as [|fuel]; [cbn [depth] in Hfuel; lia|]).
- cbn [plain_value] in Hplain. cbn [encode].
  rewrite (encode_string_plain s Hplain).
  change ((dquote :: s ++ [dquote]) ++ rest) with (dquote :: ((s ++ [dquote]) ++ rest)).
  rewrite <- app_assoc. change ([dquote] ++ rest) with (dquote :: rest).
  rewrite parse_value_str, parse_chars_plain by assumption. reflexivity.
- destruct items as [|v vs]; [reflexivity|].
  pose proof (depth_list_bound _ _ Hfuel) as Hdepth.
  cbn [plain_value forallb] in Hplain. apply andb_prop in Hplain as [Hv Hvs].
  inversion IH as [|? ? IHv IHvs]; subst.
  inversion Hdepth as [|? ? Hdv Hdvs]; subst.
  assert (Hitems : Forall (fun x => forall t,
                      parse_value fuel (encode indent (S level) x ++ t) = Some (x, t)) vs).
  { rewrite Forall_forall in *. rewrite forallb_forall in Hvs.
    intros x Hx t. apply IHvs; auto. }
  rewrite encode_list_cons.
  set (more := flat_map (fun y => (Py.lit "," ++ newline_indent indent (S level)) ++ y)
                        (map (encode indent (S level)) vs)).
  assert (Hmore : (length vs <= length more)%nat).
  { unfold more. rewrite <- (length_map (encode indent (S level)) vs) at 1.
    apply flat_map_length_ge. intros y. rewrite length_app. cbn. lia. }
  change (("["%char :: ?a) ++ rest) with ("["%char :: (a ++ rest)).
  rewrite <- !app_assoc.
  set (tail := more ++ newline_indent indent level ++ Py.lit "]" ++ rest).
  assert (Hlen : (length vs < length ("["%char :: newline_indent indent (S level)
                                        ++ encode indent (S level) v ++ tail))%nat).
  { cbn [length]. unfold tail. rewrite !length_app. lia. }
  rewrite parse_value_list, skip_ws_newline_indent, skip_ws_encode.
  pose proof (IHv Hv indent fuel (S level) tail Hdv) as Hfirst.
  destruct (encode_starts indent (S level) v) as (c & u & He & Hc).
  destruct (encode indent (S level) v ++ tail) as [|d s2] eqn:El;
    [rewrite He in El; discriminate El|].
  assert (Hd : d = c) by (rewrite He in El; now injection El).
  destruct (Ascii.eqb_spec d "]"%char) as [Hbad|_].
  { exfalso. subst d. revert Hbad. apply opener_not; [assumption | | |]; discriminate. }
  rewrite Hfirst. unfold tail, more.
  rewrite (parse_items_spec (parse_value fuel) indent level rest vs [v] _ Hitems Hlen).
  reflexivity.
- destruct items as [|[k x] kvs]; [reflexivity|].
  pose proof (depth_dict_bound _ _ Hfuel) as Hdepth.
  cbn [plain_value forallb] in Hplain. apply andb_prop in Hplain as [Hkx Hkvs].
  apply andb_prop in Hkx as [Hk Hx].
  inversion IH as [|? ? IHx IHkvs]; subst.
  inversion Hdepth as [|? ? Hdx Hdkvs]; subst. cbn [snd] in IHx, Hdx.
  assert (Hitems : Forall (fun kv => forallb json_plain (fst kv) = true
                      /\ forall t, parse_value fuel
                                     (encode indent (S level) (snd kv) ++ t)
                                   = Some (snd kv, t)) kvs).
  { rewrite Forall_forall in *. rewrite forallb_forall in Hkvs.
    intros [k' x'] Hin. specialize (Hkvs _ Hin).
    apply andb_prop in Hkvs as [Hk' Hx']. cbn [fst snd]. split; [exact Hk'|].
    intros t. apply (IHkvs _ Hin); [exact Hx'|]. exact (Hdkvs _ Hin). }
  rewrite encode_dict_cons.
  set (more := flat_map (fun y => (Py.lit "," ++ newline_indent indent (S level)) ++ y)
                        (map (pair_text indent level) kvs)).
  assert (Hmore : (length kvs <= length more)%nat).
  { unfold more. rewrite <- (length_map (pair_text indent level) kvs) at 1.
    apply flat_map_length_ge. intros y. rewrite length_app. cbn. lia. }
  change (("{"%char :: ?a) ++ rest) with ("{"%char :: (a ++ rest)).
  rewrite <- !app_assoc.
  set (tail := more ++ newline_indent indent level ++ Py.lit "}" ++ rest).
  assert (Hlen : (length kvs < length ("{"%char :: newline_indent indent (S level)
                                         ++ pair_text indent level (k, x) ++ tail))%nat).
  { cbn [length]. unfold tail. rewrite !length_app. lia. }
  rewrite parse_value_dict, skip_ws_newline_indent.
  assert (Hsk : skip_ws (pair_text indent level (k, x) ++ tail)
                = pair_text indent level (k, x) ++ tail)
    by (apply skip_ws_head; reflexivity).
  rewrite Hsk.
  pose proof (parse_pair_spec (parse_value fuel) indent level k x tail Hk
                (fun u => IHx Hx indent fuel (S level) u Hdx)) as Hfirst.
  destruct (pair_text indent level (k, x) ++ tail) as [|d s2] eqn:El;
    [discriminate El|].
  assert (Hd : d = dquote) by (now injection El).
  destruct (Ascii.eqb_spec d "}"%char) as [Hbad|_];
    [rewrite Hd in Hbad; discriminate Hbad|].
  rewrite Hfirst. unfold tail, more.
  rewrite (parse_pairs_spec (parse_value fuel) indent level rest kvs [(k, x)] _
             Hitems Hlen).
  reflexivity.
Qed.

Lemma join_flat_map_length sep (l : list Py.str) :
  (length (Json.join sep l) <= length (flat_map (fun y => sep ++ y) l))%nat.
Proof.
destruct l as [|x l]; [reflexivity|].
rewrite join_cons. cbn [flat_map]. rewrite !length_app. lia.
Qed.

Lemma depth_le_length : forall v indent level,
  (depth v <= length (encode indent level v))%nat.
Proof.
induction v as [s|items IH|items IH] using value_induction; intros indent level.
- cbn [depth encode]. unfold encode_string. cbn [length]. lia.
- destruct items as [|v vs]; [cbn; lia|].
  rewrite encode_list_cons. cbn [depth length]. rewrite !length_app.
  enough (fold_right (fun x m => Nat.max (depth x) m) 0%nat (v :: vs)
          <= length (encode indent (S level) v
                       ++ flat_map (fun y => (Py.lit "," ++ newline_indent indent (S level)) ++ y)
                                   (map (encode indent (S level)) vs)))%nat
    by (rewrite length_app in *; cbn [fold_right] in *; lia).
  rewrite <- join_cons.
  change (encode indent (S level) v :: map (encode indent (S level)) vs)
    with (map (encode indent (S level)) (v :: vs)).
  induction IH as [|x xs Hx _ IHxs]; [cbn; lia|].
  cbn [fold_right map]. rewrite join_cons, length_app.
  specialize (Hx indent (S level)).
  pose proof (join_flat_map_length (Py.lit "," ++ newline_indent indent (S level))
                (map (encode indent (S level)) xs)). lia.
- destruct items as [|kv kvs]; [cbn; lia|].
  rewrite encode_dict_cons. cbn [depth length]. rewrite !length_app.
  enough (fold_right (fun kv m => match kv with (_, x) => Nat.max (depth x) m end)
                     0%nat (kv :: kvs)
          <= length (pair_text indent level kv
                       ++ flat_map (fun y => (Py.lit "," ++ newline_indent indent (S level)) ++ y)
                                   (map (pair_text indent level) kvs)))%nat
    by (rewrite length_app in *; cbn [fold_right] in *; lia).
  rewrite <- join_cons.
  change (pair_text indent level kv :: map (pair_text indent level) kvs)
    with (map (pair_text indent level) (kv :: kvs)).
  induction IH as [|[k x] xs Hx _ IHxs]; [cbn; lia|].
  cbn [fold_right map]. rewrite join_cons, length_app.
  cbn [snd] in Hx. specialize (Hx indent (S level)).
  assert (Hp : (length (encode indent (S level) x)
                <= length (pair_text indent level (k, x)))%nat)
    by (unfold pair_text; rewrite !length_app; lia).
  pose proof (join_flat_map_length (Py.lit "," ++ newline_indent indent (S level))
                (map (pair_text indent level) xs)). lia.
Qed.

(** Every value printable without escapes is read back as it was. *)
Lemma loads_dumps v indent :
  plain_value v = true -> loads (dumps indent v) = Some v.
Proof.
intros Hplain. unfold loads, dumps.
rewrite <- (app_nil_r (encode indent 0 v)) at 2.
rewrite skip_ws_encode, app_nil_r.
rewrite <- (app_nil_r (encode indent 0 v)) at 2.
rewrite (encode_parse v Hplain indent _ 0 []) by apply depth_le_length.
reflexivity.
Qed.

Lemma uint_text_json_plain d :
  forallb json_plain (list_ascii_of_string (NilEmpty.string_of_uint d)) = true.
Proof. induction d; simpl; trivial. Qed.

Lemma str_of_int_json_plain i : forallb json_plain (Py.str_of_int i) = true.
Proof.
unfold Py.str_of_int, Py.lit.
destruct (Z.to_int i) as [d|d]; simpl.
- destruct d; simpl; trivial; apply uint_text_json_plain.
- destruct d; simpl; trivial; apply uint_text_json_plain.
Qed.

Lemma entry_plain i : plain_value (entry i) = true.
Proof.
unfold entry. cbn [plain_value forallb].
rewrite forallb_app, !str_of_int_json_plain. reflexivity.
Qed.

(** X15.  For every integer index the dictionary the script builds
    survives [json.dump] with indent 2 followed by a load unchanged, and
    so does the array of the entries for indices 0 to [n - 1] for every
    count [n]: none of its strings needs an escape.  With a count of zero
    or less the array is empty and is written as two brackets. *)
Theorem entries_round_trip (i n : Z) :
  loads (dumps 2 (entry i)) = Some (entry i)
  /\ loads (text (dump (List (data_of n)) (open_w Universal) 2))
     = Some (List (data_of n))
  /\ data = data_of 1000
  /\ Z.of_nat (length (data_of n)) = Z.max 0 n
  /\ (n <= 0 -> dumps 2 (List (data_of n)) = Py.lit "[]").
Proof.
split; [apply loads_dumps, entry_plain|]. split; [|split; [reflexivity|split]].
- rewrite text_concat. unfold dump, write, open_w. cbn [writes].
  rewrite app_nil_l. cbn [concat]. rewrite app_nil_r. apply loads_dumps.
  cbn [plain_value]. apply forallb_forall. intros v Hv.
  unfold data_of in Hv. apply in_map_iff in Hv as (j & <- & _).
  apply entry_plain.
- unfold data_of. rewrite length_map.
  pose proof (range_length 0 n). lia.
- intros Hn. unfold data_of, Py.range.
  replace (Z.to_nat (n - 0)) with 0%nat by lia. reflexivity.
Qed.

Lemma entries_round_trip_witness :
  -2 <= 0 /\ dumps 2 (List (data_of (-2))) = Py.lit "[]".
Proof.
split; [lia|].
exact (proj2 (proj2 (proj2 (proj2 (entries_round_trip 0 (-2))))) ltac:(lia)).
Defined.

End JsonMore.
